(** * Order service of the glamora backend: a shallow embedding

    The order service (createOrderIntoDB, the listing operations and
    updateOrder) is a set of asynchronous functions that read and write a
    relational database through the Prisma client.  Here the database is an
    explicit state, the functions are computations in a state-and-exception
    monad, and the queries they compose (where-conditions, orderings,
    pagination) are kept as data and then evaluated on the tables. *)

From Stdlib Require Import ZArith Lia Ascii String.
From stdpp Require Import base option list strings gmap sorting pretty.

Local Open Scope string_scope.
Local Open Scope Z_scope.
Set Warnings "-register-all".

(** ** Exceptions, results, and the service monad *)

(** The errors a call can raise: [ApiError] carries an HTTP-like status code
    and a message, [Error] is the plain JavaScript error with a message only,
    and the remaining three are the errors of the Prisma client (a record
    required to exist is missing, a query the client refuses, a constraint of
    the database that an insert violates). *)
Inductive exn : Type :=
  | ApiError (statusCode : Z) (message : string)
  | Error (message : string)
  | PrismaNotFoundError
  | PrismaValidationError
  | PrismaConstraintError
  | ExternalError (message : string).

Inductive result (A : Type) : Type :=
  | Ok (a : A)
  | Throw (e : exn).
Arguments Ok {A} a.
Arguments Throw {A} e.

(** ** Data model *)

Module Customer.
Record t : Type := mk { customerId : string; email : string }.
End Customer.

Module Vendor.
Record t : Type := mk { vendorId : string; email : string }.
End Vendor.

Module Shop.
Record t : Type := mk { shopId : string; isBlackListed : bool; vendorId : string }.
End Shop.

(** A row of the order table.  [status] and [paymentStatus] hold the name of
    an enum member, as the transition table of updateOrder is keyed by
    strings.  Amounts are only copied around by the service and are kept as
    integers. *)
Module Order.
Record t : Type := mk {
  id : string;
  couponId : option string;
  subTotal : Z;
  total : Z;
  discounts : Z;
  customerId : string;
  transactionId : string;
  paymentStatus : string;
  status : string;
  createdAt : Z
}.

Definition with_status (s : string) (o : t) : t :=
  mk (id o) (couponId o) (subTotal o) (total o) (discounts o) (customerId o)
     (transactionId o) (paymentStatus o) s (createdAt o).
End Order.

Module OrderItem.
Record t : Type := mk {
  orderId : string;
  shopId : string;
  productId : string;
  size : string;
  quantity : Z;
  price : Z;
  discount : Z
}.
End OrderItem.

(** The request payload of order creation (IOrderRequest). *)
Module IOrderItem.
Record t : Type := mk {
  shopId : string;
  productId : string;
  size : string;
  quantity : Z;
  price : Z;
  discount : Z
}.
End IOrderItem.

Module IOrderRequest.
Record t : Type := mk {
  couponId : option string;
  subTotal : Z;
  total : Z;
  discounts : Z;
  items : list IOrderItem.t
}.
End IOrderRequest.

(** The decoded token of the caller. *)
Record JwtPayload : Type := { role : string; userEmail : string }.

(** The tables the order service touches. *)
Record DB : Type := {
  customers : list Customer.t;
  vendors : list Vendor.t;
  shops : list Shop.t;
  orders : list Order.t;
  orderItems : list OrderItem.t
}.

(** What initiatePayment is called with. *)
Record PaymentRequest : Type := {
  orderData : Z;
  txn : string;
  customerData : Customer.t;
  orderId : string
}.

(** ** Queries as data *)

(** Values of the query-parameter record (Record<string, unknown>). *)
Inductive JSValue : Type :=
  | JUndefined
  | JNull
  | JBool (b : bool)
  | JNumber (z : Z)
  | JNaN
  | JString (s : string)
  | JObject (tag : string).

(** Boolean(v). *)
Definition truthy (v : JSValue) : bool :=
  match v with
  | JUndefined | JNull | JNaN => false
  | JBool b => b
  | JNumber z => negb (Z.eqb z 0)
  | JString s => negb (String.eqb s "")
  | JObject _ => true
  end.

(** The where-conditions the service builds (Prisma.OrderWhereInput). *)
Inductive OrderWhereInput : Type :=
  | WAnd (conds : list OrderWhereInput)
  | WFieldEquals (field : string) (v : JSValue)
  | WCustomerId (c : option string)
  | WItemsSomeShopVendor (vendorId : string)
  | WStatusNot (s : string).

(** { [field]: direction }; the direction is undefined when the sort string
    has no second part. *)
Record OrderBy : Type := { ob_field : string; ob_direction : option string }.

Inductive ConsoleEvent : Type :=
  | ConsoleDir (conds : list OrderWhereInput)
  | ConsoleLog (n : Z).

(** The state a call runs in: the database, the payment requests sent out so
    far, and what was written to the console. *)
Record World : Type := {
  db : DB;
  paymentCalls : list PaymentRequest;
  console : list ConsoleEvent
}.

Definition M (A : Type) : Type := World → result A * World.

Definition ret {A} (a : A) : M A := λ w, (Ok a, w).
Definition throw {A} (e : exn) : M A := λ w, (Throw e, w).
Definition bind {A B} (m : M A) (k : A → M B) : M B :=
  λ w, match m w with
       | (Ok a, w') => k a w'
       | (Throw e, w') => (Throw e, w')
       end.
Definition getDB : M DB := λ w, (Ok (db w), w).
Definition putDB (d : DB) : M unit :=
  λ w, (Ok tt, {| db := d; paymentCalls := paymentCalls w; console := console w |}).
Definition lift {A} (r : result A) : M A := λ w, (r, w).

Notation "'let!' x ':=' m 'in' k" := (bind m (λ x, k))
  (at level 10, x pattern, m at level 100, k at level 200, only parsing).

(** ** The Prisma calls on single rows *)

Definition find_customer (email : string) (d : DB) : option Customer.t :=
  List.find (λ c, bool_decide (Customer.email c = email)) (customers d).

Definition prisma_customer_findUnique (email : string) : M (option Customer.t) :=
  let! d := getDB in ret (find_customer email d).

Definition prisma_vendor_findUniqueOrThrow (email : string) : M Vendor.t :=
  let! d := getDB in
  match List.find (λ v, bool_decide (Vendor.email v = email)) (vendors d) with
  | Some v => ret v
  | None => throw PrismaNotFoundError
  end.

Definition find_order (id : string) (d : DB) : option Order.t :=
  List.find (λ o, bool_decide (Order.id o = id)) (orders d).

Definition prisma_order_findUnique (id : string) : M (option Order.t) :=
  let! d := getDB in ret (find_order id d).

Definition prisma_order_findUniqueOrThrow (id : string) : M Order.t :=
  let! d := getDB in
  match find_order id d with
  | Some o => ret o
  | None => throw PrismaNotFoundError
  end.

(** update({ where: { id }, data: { status } }): the row with that id gets the
    new status, the other rows stay as they are. *)
Fixpoint update_status (id s : string) (l : list Order.t) : list Order.t :=
  match l with
  | [] => []
  | o :: l' =>
      if bool_decide (Order.id o = id)
      then Order.with_status s o :: l'
      else o :: update_status id s l'
  end.

Definition set_orders (l : list Order.t) (d : DB) : DB :=
  {| customers := customers d; vendors := vendors d; shops := shops d;
     orders := l; orderItems := orderItems d |}.

Definition prisma_order_update (id s : string) : M Order.t :=
  let! d := getDB in
  match find_order id d with
  | None => throw PrismaNotFoundError
  | Some o =>
      let! _ := putDB (set_orders (update_status id s (orders d)) d) in
      ret (Order.with_status s o)
  end.

(** ** updateOrder *)

(** The transition table; a status that is not a key yields undefined. *)
Definition statusSequence (currentStatus : string) : option string :=
  if bool_decide (currentStatus = "PENDING") then Some "ONGOING"
  else if bool_decide (currentStatus = "ONGOING") then Some "DELIVERED"
  else if bool_decide (currentStatus = "DELIVERED") then Some "DELIVERED"
  else None.

(** !nextStatus *)
Definition not_string (s : option string) : bool :=
  match s with
  | None => true
  | Some s => String.eqb s ""
  end.

Definition updateOrder (id : string) : M Order.t :=
  let! order := prisma_order_findUnique id in
  match order with
  | None => throw (Error ("Order with ID " +:+ id +:+ " not found"))
  | Some order =>
      let currentStatus := Order.status order in
      let nextStatus := statusSequence currentStatus in
      if not_string nextStatus
      then throw (Error ("Invalid current status: " +:+ currentStatus))
      else prisma_order_update id (default "" nextStatus)
  end.

(** ** Pagination, ordering and where-conditions *)

Module IPaginationOptions.
Record t : Type := mk { page : JSValue; limit : JSValue; sort : option string }.
End IPaginationOptions.

(** What paginationHelper.calculatePagination hands back, as far as the
    service uses it. *)
Module Pagination.
Record t : Type := mk { page : Z; limit : Z; skip : Z }.
End Pagination.

(** A JavaScript number as far as Math.ceil(total / limit) can produce one
    from an integer total and an integer limit. *)
Inductive JSNumber : Type :=
  | Finite (z : Z)
  | NegZero
  | PosInfinity
  | NegInfinity
  | NaN.

(** Math.ceil(total / limit) on integers (exact below 2^53): a zero divisor
    gives an infinity or NaN, and a quotient in (-1, 0], negative zero
    included, is rounded to negative zero. *)
Definition math_ceil_div (total limit : Z) : JSNumber :=
  if Z.eqb limit 0 then
    if Z.eqb total 0 then NaN
    else if Z.ltb 0 total then PosInfinity else NegInfinity
  else
    let q := - ((- total) / limit) in
    if Z.eqb q 0 && (Z.ltb total 0 && Z.ltb 0 limit || Z.leb 0 total && Z.ltb limit 0)
    then NegZero else Finite q.

Module Meta.
Record t : Type := mk { page : Z; limit : Z; total : Z; totalPage : JSNumber }.
End Meta.

(** An order as a listing returns it: the row, its items (with the shop of
    each item where the query includes it) and the customer (where the query
    includes it).  The product joined to each item is not part of the model. *)
Record ItemRecord : Type := { item : OrderItem.t; shop : option Shop.t }.
Record OrderRecord : Type := {
  row : Order.t;
  items : list ItemRecord;
  customer : option Customer.t
}.

Record Include : Type := { include_shop : bool; include_customer : bool }.

Record Envelope : Type := { meta : Meta.t; data : list OrderRecord }.

(** s.split(sep) for a one-character separator. *)
Fixpoint split (sep : ascii) (s : string) : list string :=
  match s with
  | EmptyString => [EmptyString]
  | String c rest =>
      match split sep rest with
      | piece :: more =>
          if bool_decide (c = sep) then EmptyString :: piece :: more
          else String c piece :: more
      | [] => [String c EmptyString]
      end
  end.

(** Whether the character occurs in the string. *)
Fixpoint has_char (c : ascii) (s : string) : bool :=
  match s with
  | EmptyString => false
  | String c' rest => bool_decide (c' = c) || has_char c rest
  end.

(** The orderBy argument every listing builds from paginationData.sort. *)
Definition orderBy_of (paginationData : IPaginationOptions.t) : OrderBy :=
  match IPaginationOptions.sort paginationData with
  | Some sort =>
      if String.eqb sort "" then {| ob_field := "createdAt"; ob_direction := Some "desc" |}
      else {| ob_field := default "" (split "-" sort !! 0%nat);
              ob_direction := split "-" sort !! 1%nat |}
  | None => {| ob_field := "createdAt"; ob_direction := Some "desc" |}
  end.

(** const { searchTerm, ...filterData } = params *)
Definition rest_without_searchTerm (params : gmap string JSValue) : gmap string JSValue :=
  delete "searchTerm" params.

(** Object.keys(o): the own keys of the record, here in the enumeration order
    of the map.  The keys only feed the conjuncts of one AND block, whose
    order does not change what the block selects. *)
Definition object_keys (o : gmap string JSValue) : list string :=
  (map_to_list o).*1.

(** o[field] *)
Definition get_property (o : gmap string JSValue) (field : string) : JSValue :=
  default JUndefined (o !! field).

(** The conjuncts built from the filter data: one equality per field whose
    value is truthy. *)
Definition filter_conjuncts (filterData : gmap string JSValue) : list OrderWhereInput :=
  map (λ field, WFieldEquals field (get_property filterData field))
      (List.filter (λ field, truthy (get_property filterData field))
                   (object_keys filterData)).

(** The first part of andCondtion, shared by the customer and the vendor
    listing. *)
Definition filter_condition (filterData : gmap string JSValue) : list OrderWhereInput :=
  if Nat.ltb 0 (length (object_keys filterData))
  then [WAnd (filter_conjuncts filterData)]
  else [].

(** ** The service *)

(** What each call of createOrderIntoDB draws from its environment: the clock
    (Date.now()), the random suffix (Math.floor(Math.random() * 100000), an
    integer from 0 to 99999), and the id and creation time the database gives
    the new row. *)
Record Env : Type := {
  dateNow : Z;
  randomNum : Z;
  newOrderId : string;
  newCreatedAt : Z
}.

(** The data argument of prisma.order.create. *)
Module OrderCreateInput.
Record t : Type := mk {
  couponId : option string;
  subTotal : Z;
  total : Z;
  discounts : Z;
  customerId : string;
  transactionId : string;
  paymentStatus : string;
  items : list IOrderItem.t
}.
End OrderCreateInput.

(** paymentInfo.data *)
Record PaymentInfo : Type := { payment_url : string }.

(** { ...orderData, payLink } *)
Record CreatedOrder : Type := { order : Order.t; payLink : string }.

Record FindManyArgs : Type := {
  fm_where : option OrderWhereInput;
  fm_include : Include;
  fm_skip : Z;
  fm_take : Z;
  fm_orderBy : OrderBy
}.

(** ** A small database to run the service on *)

Module Sample.
Definition alice : Customer.t := Customer.mk "c1" "alice@example.com".
Definition bob : Customer.t := Customer.mk "c2" "bob@example.com".
Definition vera : Vendor.t := Vendor.mk "v1" "vera@example.com".
Definition open_shop : Shop.t := Shop.mk "s1" false "v1".
Definition banned_shop : Shop.t := Shop.mk "s2" true "v1".

Definition o1 : Order.t :=
  Order.mk "o1" None 50 45 5 "c1" "TXN-1-1" "PENDING" "PENDING" 100.
Definition o2 : Order.t :=
  Order.mk "o2" None 70 70 0 "c2" "TXN-2-2" "PENDING" "ONGOING" 200.
Definition o3 : Order.t :=
  Order.mk "o3" None 20 20 0 "c1" "TXN-3-3" "PAID" "DELIVERED" 300.

Definition database : DB :=
  {| customers := [alice; bob];
     vendors := [vera];
     shops := [open_shop; banned_shop];
     orders := [o1; o2; o3];
     orderItems :=
       [OrderItem.mk "o1" "s1" "p1" "M" 1 50 5;
        OrderItem.mk "o2" "s1" "p2" "L" 2 35 0;
        OrderItem.mk "o3" "s1" "p1" "S" 1 20 0] |}.

Definition world : World :=
  {| db := database; paymentCalls := []; console := [] |}.

Definition env : Env :=
  {| dateNow := 1700000000000; randomNum := 4242;
     newOrderId := "o4"; newCreatedAt := 400 |}.

Definition good_item : IOrderItem.t := IOrderItem.mk "s1" "p1" "M" 2 50 0.
Definition banned_item : IOrderItem.t := IOrderItem.mk "s2" "p9" "M" 1 10 0.

Definition good_request : IOrderRequest.t :=
  IOrderRequest.mk None 100 100 0 [good_item].
Definition banned_request : IOrderRequest.t :=
  IOrderRequest.mk None 110 110 0 [good_item; banned_item].

Definition alice_token : JwtPayload :=
  {| role := "CUSTOMER"; userEmail := "alice@example.com" |}.
Definition stranger_token : JwtPayload :=
  {| role := "CUSTOMER"; userEmail := "nobody@example.com" |}.
Definition vera_token : JwtPayload :=
  {| role := "VENDOR"; userEmail := "vera@example.com" |}.

Definition no_options : IPaginationOptions.t :=
  IPaginationOptions.mk JUndefined JUndefined None.

(** One way to fill in what the service takes from outside. *)
Definition calculatePagination (_ : IPaginationOptions.t) : Pagination.t :=
  Pagination.mk 1 10 0.
Definition initiatePayment (req : PaymentRequest) : result PaymentInfo :=
  Ok {| payment_url := "https://pay.example/" +:+ txn req |}.
Definition column_equals (field : string) (v : JSValue) : option (Order.t → bool) :=
  match v with
  | JString s =>
      if bool_decide (field = "status")
      then Some (λ o, bool_decide (Order.status o = s))
      else None
  | _ => None
  end.
Definition column_le (field : string) : option (Order.t → Order.t → bool) :=
  if bool_decide (field = "total")
  then Some (λ a b, bool_decide (Order.total a ≤ Order.total b))
  else None.
Definition default_status : string := "PENDING".
Definition schema_accepts (_ : DB) (_ : Order.t) (_ : list OrderItem.t) : bool := true.
End Sample.

Section Service.

(** Parts of the repository and of its database schema that the order
    service uses and that lie outside its source file. *)

(** paginationHelper.calculatePagination *)
Variable calculatePagination : IPaginationOptions.t → Pagination.t.

(** initiatePayment (the call to the payment gateway): the response, or the
    error it raises. *)
Variable initiatePayment : PaymentRequest → result PaymentInfo.

(** The schema's reading of { [field]: { equals: v } }: the test on a row,
    or nothing when the client refuses the field or the value. *)
Variable column_equals : string → JSValue → option (Order.t → bool).

(** The schema's ascending order on a column other than createdAt, or
    nothing when there is no such column to order by. *)
Variable column_le : string → option (Order.t → Order.t → bool).

(** The status the schema gives a new order. *)
Variable default_status : string.

(** The constraints of the schema (foreign keys, uniqueness) on a new order
    and its items, other than the primary key of the order. *)
Variable schema_accepts : DB → Order.t → list OrderItem.t → bool.

(** *** Evaluating a query *)

Definition shop_of (d : DB) (shopId : string) : option Shop.t :=
  List.find (λ s, bool_decide (Shop.shopId s = shopId)) (shops d).

Definition customer_of (d : DB) (customerId : string) : option Customer.t :=
  List.find (λ c, bool_decide (Customer.customerId c = customerId)) (customers d).

Definition items_of (d : DB) (o : Order.t) : list OrderItem.t :=
  List.filter (λ it, bool_decide (OrderItem.orderId it = Order.id o)) (orderItems d).

Definition item_shop_vendor_is (d : DB) (vendorId : string) (it : OrderItem.t) : bool :=
  match shop_of d (OrderItem.shopId it) with
  | Some s => bool_decide (Shop.vendorId s = vendorId)
  | None => false
  end.

(** The test a where-condition stands for, or nothing when the client
    refuses it.  A field given as undefined does not constrain. *)
Fixpoint compile_where (d : DB) (w : OrderWhereInput) : option (Order.t → bool) :=
  match w with
  | WAnd conds =>
      (fix all (l : list OrderWhereInput) : option (Order.t → bool) :=
         match l with
         | [] => Some (λ _, true)
         | c :: l' =>
             match compile_where d c, all l' with
             | Some p, Some q => Some (λ o, p o && q o)
             | _, _ => None
             end
         end) conds
  | WFieldEquals field v => column_equals field v
  | WCustomerId None => Some (λ _, true)
  | WCustomerId (Some c) => Some (λ o, bool_decide (Order.customerId o = c))
  | WItemsSomeShopVendor v =>
      Some (λ o, existsb (item_shop_vendor_is d v) (items_of d o))
  | WStatusNot s => Some (λ o, negb (bool_decide (Order.status o = s)))
  end.

Definition compile_where_opt (d : DB) (w : option OrderWhereInput)
  : option (Order.t → bool) :=
  match w with
  | None => Some (λ _, true)
  | Some w => compile_where d w
  end.

(** Ascending order on a column. *)
Definition order_le (field : string) : option (Order.t → Order.t → bool) :=
  if bool_decide (field = "createdAt")
  then Some (λ a b, bool_decide (Order.createdAt a ≤ Order.createdAt b))
  else column_le field.

(** Rows in the order an orderBy asks for, or nothing when the client
    refuses it.  An undefined direction leaves the rows as the table has
    them.  The database fixes no order among rows that tie on the column, nor
    any order at all under an undefined direction; here such rows come in
    table order, and a statement about the position of a row holds of the
    database only where the keys are distinct. *)
Definition order_rows (ob : OrderBy) (rows : list Order.t) : option (list Order.t) :=
  match ob_direction ob with
  | None => Some rows
  | Some dir =>
      match order_le (ob_field ob) with
      | None => None
      | Some le =>
          if bool_decide (dir = "asc") then Some (merge_sort (λ a b, Is_true (le a b)) rows)
          else if bool_decide (dir = "desc") then Some (merge_sort (λ a b, Is_true (le b a)) rows)
          else None
      end
  end.

(** skip and take as the Prisma client applies them: a take that is not
    negative keeps the first rows after the skipped ones, a negative take
    counts from the end of the ordering. *)
Definition slice (skip take : Z) (rows : list Order.t) : list Order.t :=
  if Z.leb 0 take
  then List.firstn (Z.to_nat take) (List.skipn (Z.to_nat skip) rows)
  else rev (List.firstn (Z.to_nat (- take)) (List.skipn (Z.to_nat skip) (rev rows))).

Definition with_relations (d : DB) (inc : Include) (o : Order.t) : OrderRecord :=
  {| row := o;
     items := map (λ it, {| item := it;
                            shop := if include_shop inc
                                    then shop_of d (OrderItem.shopId it) else None |})
                  (items_of d o);
     customer := if include_customer inc then customer_of d (Order.customerId o) else None |}.

Definition run_findMany (d : DB) (args : FindManyArgs) : result (list OrderRecord) :=
  match compile_where_opt d (fm_where args) with
  | None => Throw PrismaValidationError
  | Some p =>
      match order_rows (fm_orderBy args) (List.filter p (orders d)) with
      | None => Throw PrismaValidationError
      | Some sorted =>
          if Z.ltb (fm_skip args) 0 then Throw PrismaValidationError
          else Ok (map (with_relations d (fm_include args))
                       (slice (fm_skip args) (fm_take args) sorted))
      end
  end.

Definition run_count (d : DB) (w : option OrderWhereInput) : result Z :=
  match compile_where_opt d w with
  | None => Throw PrismaValidationError
  | Some p => Ok (Z.of_nat (length (List.filter p (orders d))))
  end.

Definition prisma_order_findMany (args : FindManyArgs) : M (list OrderRecord) :=
  let! d := getDB in lift (run_findMany d args).

Definition prisma_order_count (w : option OrderWhereInput) : M Z :=
  let! d := getDB in lift (run_count d w).

(** findMany({ where: { isBlackListed: true }, select: { shopId: true } }) *)
Definition prisma_shop_findMany_blacklisted : M (list Shop.t) :=
  let! d := getDB in ret (List.filter Shop.isBlackListed (shops d)).

Definition add_order (o : Order.t) (its : list OrderItem.t) (d : DB) : DB :=
  {| customers := customers d; vendors := vendors d; shops := shops d;
     orders := orders d ++ [o]; orderItems := orderItems d ++ its |}.

(** prisma.order.create with nested item creation: the order row and all
    item rows are written together, or nothing is. *)
Definition order_row_of (env : Env) (input : OrderCreateInput.t) : Order.t :=
  Order.mk (newOrderId env) (OrderCreateInput.couponId input)
    (OrderCreateInput.subTotal input) (OrderCreateInput.total input)
    (OrderCreateInput.discounts input) (OrderCreateInput.customerId input)
    (OrderCreateInput.transactionId input) (OrderCreateInput.paymentStatus input)
    default_status (newCreatedAt env).

Definition item_row_of (env : Env) (i : IOrderItem.t) : OrderItem.t :=
  OrderItem.mk (newOrderId env) (IOrderItem.shopId i) (IOrderItem.productId i)
    (IOrderItem.size i) (IOrderItem.quantity i) (IOrderItem.price i)
    (IOrderItem.discount i).

Definition prisma_order_create (env : Env) (input : OrderCreateInput.t) : M Order.t :=
  let! d := getDB in
  let o := order_row_of env input in
  let its := map (item_row_of env) (OrderCreateInput.items input) in
  match find_order (newOrderId env) d with
  | Some _ => throw PrismaConstraintError
  | None =>
      if schema_accepts d o its
      then let! _ := putDB (add_order o its d) in ret o
      else throw PrismaConstraintError
  end.

Definition call_initiatePayment (req : PaymentRequest) : M PaymentInfo :=
  λ w, (initiatePayment req,
        {| db := db w; paymentCalls := paymentCalls w ++ [req]; console := console w |}).

Definition console_write (e : ConsoleEvent) : M unit :=
  λ w, (Ok tt, {| db := db w; paymentCalls := paymentCalls w; console := console w ++ [e] |}).

(** *** createOrderIntoDB *)

Definition generateTransactionId (env : Env) : string :=
  "TXN-" +:+ pretty (dateNow env) +:+ "-" +:+ pretty (randomNum env).

(** blacklistedShopIds.includes(shopId) *)
Definition includes (ids : list string) (shopId : string) : bool :=
  existsb (λ i, bool_decide (i = shopId)) ids.

Definition createOrderIntoDB (orderInfo : IOrderRequest.t) (userData : JwtPayload)
    (env : Env) : M CreatedOrder :=
  let! customerData := prisma_customer_findUnique (userEmail userData) in
  match customerData with
  | None => throw (ApiError 404 "Customer not found for payment")
  | Some customerData =>
      let! blacklistedShops := prisma_shop_findMany_blacklisted in
      let blacklistedShopIds := map Shop.shopId blacklistedShops in
      let blacklistedInOrder :=
        List.find (λ item, includes blacklistedShopIds (IOrderItem.shopId item))
                  (IOrderRequest.items orderInfo) in
      match blacklistedInOrder with
      | Some blacklistedInOrder =>
          throw (ApiError 400
                   ("Order cannot be placed as shop "
                      +:+ IOrderItem.shopId blacklistedInOrder +:+ " is blacklisted."))
      | None =>
          let! orderData :=
            prisma_order_create env
              (OrderCreateInput.mk
                 (IOrderRequest.couponId orderInfo)
                 (IOrderRequest.subTotal orderInfo)
                 (IOrderRequest.total orderInfo)
                 (IOrderRequest.discounts orderInfo)
                 (Customer.customerId customerData)
                 (generateTransactionId env)
                 "PENDING"
                 (IOrderRequest.items orderInfo)) in
          let! paymentInfo :=
            call_initiatePayment
              {| orderData := Order.subTotal orderData;
                 txn := Order.transactionId orderData;
                 customerData := customerData;
                 orderId := Order.id orderData |} in
          ret {| order := orderData; payLink := payment_url paymentInfo |}
      end
  end.

(** *** The listings *)

Definition envelope (pg : Pagination.t) (total : Z) (rows : list OrderRecord) : Envelope :=
  {| meta := Meta.mk (Pagination.page pg) (Pagination.limit pg) total
               (math_ceil_div total (Pagination.limit pg));
     data := rows |}.

(** The where-condition of the customer listing; customerId is undefined
    when no customer was found. *)
Definition customer_where (customerId : option string) (params : gmap string JSValue)
  : list OrderWhereInput :=
  filter_condition (rest_without_searchTerm params) ++ [WAnd [WCustomerId customerId]].

Definition getSingleCustomerAllOrder (userInfo : JwtPayload)
    (paginationData : IPaginationOptions.t) (params : gmap string JSValue) : M Envelope :=
  let pg := calculatePagination paginationData in
  let! userData := prisma_customer_findUnique (userEmail userInfo) in
  let andCondtion := customer_where (Customer.customerId <$> userData) params in
  let whereConditons := WAnd andCondtion in
  let! result :=
    prisma_order_findMany
      {| fm_where := Some whereConditons;
         fm_include := {| include_shop := false; include_customer := false |};
         fm_skip := Pagination.skip pg;
         fm_take := Pagination.limit pg;
         fm_orderBy := orderBy_of paginationData |} in
  let! total := prisma_order_count None in
  ret (envelope pg total result).

Definition getSingleOrder (id : string) : M OrderRecord :=
  let! o := prisma_order_findUniqueOrThrow id in
  let! d := getDB in
  ret (with_relations d {| include_shop := true; include_customer := false |} o).

Definition getAllOrder (paginationData : IPaginationOptions.t) : M Envelope :=
  let pg := calculatePagination paginationData in
  let! result :=
    prisma_order_findMany
      {| fm_where := None;
         fm_include := {| include_shop := true; include_customer := true |};
         fm_skip := Pagination.skip pg;
         fm_take := Pagination.limit pg;
         fm_orderBy := orderBy_of paginationData |} in
  let! total := prisma_order_count None in
  ret (envelope pg total result).

Definition getPendingOrder (paginationData : IPaginationOptions.t) : M Envelope :=
  let pg := calculatePagination paginationData in
  let! result :=
    prisma_order_findMany
      {| fm_where := Some (WStatusNot "DELIVERED");
         fm_include := {| include_shop := true; include_customer := true |};
         fm_skip := Pagination.skip pg;
         fm_take := Pagination.limit pg;
         fm_orderBy := orderBy_of paginationData |} in
  let! total := prisma_order_count (Some (WStatusNot "DELIVERED")) in
  ret (envelope pg total result).

Definition vendor_where (vendorId : string) (params : gmap string JSValue)
  : list OrderWhereInput :=
  filter_condition (rest_without_searchTerm params)
    ++ [WAnd [WItemsSomeShopVendor vendorId]].

Definition getSpecificShopOrder (userData : JwtPayload)
    (paginationData : IPaginationOptions.t) (params : gmap string JSValue) : M Envelope :=
  let! vendor := prisma_vendor_findUniqueOrThrow (userEmail userData) in
  let pg := calculatePagination paginationData in
  let andCondtion := vendor_where (Vendor.vendorId vendor) params in
  let! _ := console_write (ConsoleDir andCondtion) in
  let whereConditons := WAnd andCondtion in
  let! orders :=
    prisma_order_findMany
      {| fm_where := Some whereConditons;
         fm_include := {| include_shop := false; include_customer := true |};
         fm_skip := Pagination.skip pg;
         fm_take := Pagination.limit pg;
         fm_orderBy := orderBy_of paginationData |} in
  let! _ := console_write (ConsoleLog (Pagination.skip pg)) in
  let! total := prisma_order_count (Some whereConditons) in
  ret (envelope pg total orders).


(** *** Status rank and repeated updates *)

(** The place of a status in the sequence PENDING, ONGOING, DELIVERED. *)
Definition status_rank (s : string) : nat :=
  if bool_decide (s = "PENDING") then 0%nat
  else if bool_decide (s = "ONGOING") then 1%nat
  else if bool_decide (s = "DELIVERED") then 2%nat
  else 0%nat.

(** Modelled from the spec: the members of the enum ORDER_STATUS, which the
    database schema declares and the source only imports ("order status
    (enum: PENDING, ONGOING, DELIVERED)"). *)
Definition ORDER_STATUS : list string := ["PENDING"; "ONGOING"; "DELIVERED"].

(** The world after calling updateOrder on each id in turn, whatever each
    call returns. *)
Definition run_updates (ids : list string) (w : World) : World :=
  fold_left (λ w id, snd (updateOrder id w)) ids w.

(** c is one of the conjuncts of an AND block of the condition list. *)
Definition conjunct_of (c : OrderWhereInput) (andCondtion : list OrderWhereInput) : Prop :=
  ∃ conds, In (WAnd conds) andCondtion ∧ In c conds.

(** Newest first: the order createdAt descending puts two rows in. *)
Definition newer_first (a b : Order.t) : Prop :=
  Order.createdAt b ≤ Order.createdAt a.

(** The filter that selects the orders not yet delivered. *)
Definition not_delivered (o : Order.t) : bool :=
  negb (bool_decide (Order.status o = "DELIVERED")).

(** *** Notions used by the further properties *)

(** Two compiled conditions agree when both are refused or both are tests
    with the same answer on every row. *)
Definition agree (a b : option (Order.t → bool)) : Prop :=
  match a, b with
  | Some p, Some q => ∀ o, p o = q o
  | None, None => True
  | _, _ => False
  end.

(** Two where-conditions select the same rows of a database. *)
Definition same_selection (d : DB) (w1 w2 : option OrderWhereInput) : Prop :=
  agree (compile_where_opt d w1) (compile_where_opt d w2).

(** The number of orders not yet delivered, which is what getPendingOrder
    counts. *)
Definition pending_count (d : DB) : nat :=
  length (List.filter not_delivered (orders d)).

(** The ordering asked for leaves no two rows of the list tied: it has a
    direction, its column exists, and no two different rows of the list
    compare as equal on that column. *)
Definition distinct_sort_keys (ob : OrderBy) (rows : list Order.t) : Prop :=
  ∃ dir le,
    ob_direction ob = Some dir
    ∧ order_le (ob_field ob) = Some le
    ∧ ∀ a b, In a rows → In b rows → le a b = true → le b a = true → a = b.

(** A pagination that reads page and limit as numbers, with 1 and 10 when
    they are absent, and skips (page - 1) * limit rows; used to run the
    listings on the sample database page by page. *)
Definition sample_paginate (options : IPaginationOptions.t) : Pagination.t :=
  let page := match IPaginationOptions.page options with JNumber p => p | _ => 1 end in
  let limit := match IPaginationOptions.limit options with JNumber l => l | _ => 10 end in
  Pagination.mk page limit ((page - 1) * limit).

(** ** Properties *)

(** Unfolds the monad and the Prisma calls down to functions of the world. *)
Ltac run_M :=
  unfold prisma_order_create, call_initiatePayment, console_write,
    prisma_order_findMany, prisma_order_count, prisma_shop_findMany_blacklisted,
    prisma_customer_findUnique, prisma_vendor_findUniqueOrThrow,
    prisma_order_findUnique, prisma_order_findUniqueOrThrow, prisma_order_update,
    lift, getDB, putDB, ret, throw, bind;
  simpl.

(** *** Rows and their status *)

Lemma statusSequence_Some_nonempty s n :
  statusSequence s = Some n → not_string (Some n) = false.
Proof.
  unfold statusSequence. repeat case_bool_decide; intros [= <-]; reflexivity.
Qed.

Lemma statusSequence_None_not s : statusSequence s = None → not_string (statusSequence s) = true.
Proof. intros ->. reflexivity. Qed.

Lemma find_order_update_same id s l o :
  List.find (λ o, bool_decide (Order.id o = id)) l = Some o →
  List.find (λ o, bool_decide (Order.id o = id)) (update_status id s l)
    = Some (Order.with_status s o).
Proof.
  induction l as [|x l IH]; simpl; [discriminate|].
  destruct (bool_decide (Order.id x = id)) eqn:E; simpl.
  - intros [= ->]. rewrite E. reflexivity.
  - rewrite E. exact IH.
Qed.

Lemma find_order_update_other id id' s l :
  id' ≠ id →
  List.find (λ o, bool_decide (Order.id o = id')) (update_status id s l)
    = List.find (λ o, bool_decide (Order.id o = id')) l.
Proof.
  intros Hne. induction l as [|x l IH]; simpl; [reflexivity|].
  destruct (bool_decide (Order.id x = id)) eqn:E; simpl.
  - apply bool_decide_eq_true in E.
    rewrite !bool_decide_eq_false_2 by congruence. reflexivity.
  - rewrite IH. reflexivity.
Qed.

(** What updateOrder does, by cases on the row found and on the table. *)
Lemma updateOrder_missing id w :
  find_order id (db w) = None →
  updateOrder id w = (Throw (Error ("Order with ID " +:+ id +:+ " not found")), w).
Proof.
  intros H. unfold updateOrder, prisma_order_findUnique, bind, getDB, ret, throw.
  rewrite H. reflexivity.
Qed.

Lemma updateOrder_no_transition id w o :
  find_order id (db w) = Some o →
  statusSequence (Order.status o) = None →
  updateOrder id w = (Throw (Error ("Invalid current status: " +:+ Order.status o)), w).
Proof.
  intros H Hs. unfold updateOrder, prisma_order_findUnique, bind, getDB, ret, throw.
  rewrite H, Hs. reflexivity.
Qed.

Lemma updateOrder_transition id w o next :
  find_order id (db w) = Some o →
  statusSequence (Order.status o) = Some next →
  updateOrder id w =
    (Ok (Order.with_status next o),
     {| db := set_orders (update_status id next (orders (db w))) (db w);
        paymentCalls := paymentCalls w; console := console w |}).
Proof.
  intros H Hs.
  unfold updateOrder, prisma_order_findUnique, prisma_order_update,
    bind, getDB, putDB, ret, throw.
  rewrite H, Hs, (statusSequence_Some_nonempty _ _ Hs). simpl. rewrite H. reflexivity.
Qed.

Lemma status_rank_step s next :
  statusSequence s = Some next → (status_rank s ≤ status_rank next)%nat.
Proof.
  unfold statusSequence. repeat case_bool_decide; intros [= <-]; subst;
    vm_compute; lia.
Qed.

(** One call never lowers the rank of any order, and keeps every order. *)
Lemma updateOrder_rank_monotone id id' w o :
  find_order id' (db w) = Some o →
  ∃ o', find_order id' (db (snd (updateOrder id w))) = Some o'
        ∧ (status_rank (Order.status o) ≤ status_rank (Order.status o'))%nat.
Proof.
  intros Hfind.
  destruct (find_order id (db w)) as [x|] eqn:Hx.
  - destruct (statusSequence (Order.status x)) as [next|] eqn:Hs.
    + rewrite (updateOrder_transition _ _ _ _ Hx Hs). simpl.
      unfold find_order in *. simpl.
      destruct (decide (id' = id)) as [->|Hne].
      * rewrite (find_order_update_same _ next _ _ Hx).
        rewrite Hfind in Hx. injection Hx as <-.
        eexists; split; [reflexivity|]. simpl. by apply status_rank_step.
      * rewrite find_order_update_other by done. eauto.
    + rewrite (updateOrder_no_transition _ _ _ Hx Hs). simpl. eauto.
  - rewrite (updateOrder_missing _ _ Hx). simpl. eauto.
Qed.

Lemma run_updates_rank_monotone ids id' w o :
  find_order id' (db w) = Some o →
  ∃ o', find_order id' (db (run_updates ids w)) = Some o'
        ∧ (status_rank (Order.status o) ≤ status_rank (Order.status o'))%nat.
Proof.
  revert w o. induction ids as [|id ids IH]; intros w o Hfind; simpl.
  - eauto.
  - destruct (updateOrder_rank_monotone id id' w o Hfind) as (o1 & H1 & Hle1).
    destruct (IH _ _ H1) as (o2 & H2 & Hle2).
    exists o2. split; [exact H2|lia].
Qed.

(** C2: for an existing order whose status is a member of the enum,
    updateOrder succeeds, returns the order with its status advanced by one
    step of the table (PENDING to ONGOING, ONGOING to DELIVERED, DELIVERED to
    DELIVERED) and every other field as it was, and stores that row; and
    whatever sequence of updateOrder calls follows, on whatever ids, the
    order is still there with a status of the same or a higher rank. *)
Theorem updateOrder_advances_one_step id w o :
  find_order id (db w) = Some o →
  In (Order.status o) ORDER_STATUS →
  ∃ next,
    statusSequence (Order.status o) = Some next
    ∧ fst (updateOrder id w)
      = Ok {| Order.id := Order.id o; Order.couponId := Order.couponId o;
              Order.subTotal := Order.subTotal o; Order.total := Order.total o;
              Order.discounts := Order.discounts o;
              Order.customerId := Order.customerId o;
              Order.transactionId := Order.transactionId o;
              Order.paymentStatus := Order.paymentStatus o;
              Order.status := next;
              Order.createdAt := Order.createdAt o |}
    ∧ find_order id (db (snd (updateOrder id w)))
      = Some {| Order.id := Order.id o; Order.couponId := Order.couponId o;
                Order.subTotal := Order.subTotal o; Order.total := Order.total o;
                Order.discounts := Order.discounts o;
                Order.customerId := Order.customerId o;
                Order.transactionId := Order.transactionId o;
                Order.paymentStatus := Order.paymentStatus o;
                Order.status := next;
                Order.createdAt := Order.createdAt o |}
    ∧ (∀ r, fst (updateOrder id w) = Ok r → Order.status r = next)
    ∧ (Order.status o = "PENDING" → next = "ONGOING")
    ∧ (Order.status o = "ONGOING" → next = "DELIVERED")
    ∧ (Order.status o = "DELIVERED" → next = "DELIVERED")
    ∧ (∀ ids, ∃ o',
          find_order id (db (run_updates ids w)) = Some o'
          ∧ (status_rank (Order.status o) ≤ status_rank (Order.status o'))%nat).
Proof.
  intros Hfind Hin.
  assert (∃ next, statusSequence (Order.status o) = Some next
                  ∧ (Order.status o = "PENDING" → next = "ONGOING")
                  ∧ (Order.status o = "ONGOING" → next = "DELIVERED")
                  ∧ (Order.status o = "DELIVERED" → next = "DELIVERED"))
    as (next & Hs & Hp & Ho & Hd).
  { simpl in Hin. destruct Hin as [E|[E|[E|[]]]]; rewrite <- E;
      eexists; (split; [reflexivity|]); repeat split; intros; congruence. }
  exists next. rewrite (updateOrder_transition _ _ _ _ Hfind Hs). simpl.
  split_and!; try assumption.
  - reflexivity.
  - unfold find_order in *. simpl.
    exact (find_order_update_same id next _ _ Hfind).
  - intros r [= <-]. reflexivity.
  - intros ids. by apply run_updates_rank_monotone.
Qed.

(** C3: updateOrder raises exactly when no order has the id or the status
    of the order found is not a key of the transition table; what it raises
    then is a plain Error with a message and nothing else, and the world,
    the order included, is as before. *)
Theorem updateOrder_fails_exactly id w :
  ((∃ e, fst (updateOrder id w) = Throw e)
     ↔ (find_order id (db w) = None
        ∨ ∃ o, find_order id (db w) = Some o ∧ statusSequence (Order.status o) = None))
  ∧ (find_order id (db w) = None →
       updateOrder id w = (Throw (Error ("Order with ID " +:+ id +:+ " not found")), w))
  ∧ (∀ o, find_order id (db w) = Some o → statusSequence (Order.status o) = None →
       updateOrder id w
         = (Throw (Error ("Invalid current status: " +:+ Order.status o)), w))
  ∧ (∀ e, fst (updateOrder id w) = Throw e →
       (∃ message, e = Error message) ∧ snd (updateOrder id w) = w).
Proof.
  assert (Hcases :
    (find_order id (db w) = None
     ∧ updateOrder id w = (Throw (Error ("Order with ID " +:+ id +:+ " not found")), w))
    ∨ (∃ o, find_order id (db w) = Some o ∧ statusSequence (Order.status o) = None
            ∧ updateOrder id w
              = (Throw (Error ("Invalid current status: " +:+ Order.status o)), w))
    ∨ (∃ o next w', find_order id (db w) = Some o
                    ∧ statusSequence (Order.status o) = Some next
                    ∧ updateOrder id w = (Ok (Order.with_status next o), w'))).
  { destruct (find_order id (db w)) as [o|] eqn:Hf.
    - destruct (statusSequence (Order.status o)) as [next|] eqn:Hs.
      + right; right. eexists o, next, _. repeat split; try done.
        by apply updateOrder_transition.
      + right; left. exists o. repeat split; try done.
        by apply updateOrder_no_transition.
    - left. split; [done|]. by apply updateOrder_missing. }
  split; [|split; [|split]].
  - split.
    + intros [e He].
      destruct Hcases as [[Hf _]|[(o & Hf & Hs & _)|(o & next & w' & _ & _ & Hr)]].
      * by left.
      * right. eauto.
      * rewrite Hr in He. discriminate.
    + intros [Hf|(o & Hf & Hs)].
      * rewrite (updateOrder_missing _ _ Hf). eauto.
      * rewrite (updateOrder_no_transition _ _ _ Hf Hs). eauto.
  - apply updateOrder_missing.
  - intros o. apply updateOrder_no_transition.
  - intros e He.
    destruct Hcases as [[_ Hr]|[(o & _ & _ & Hr)|(o & next & w' & _ & _ & Hr)]];
      rewrite Hr in He |- *; simpl in *; try discriminate;
      injection He as <-; eauto.
Qed.

(** *** createOrderIntoDB *)

(** C4: when no customer has the caller's email, createOrderIntoDB raises
    the error with code 404 and a message; the database is as before and no
    payment request has gone out. *)
Theorem createOrderIntoDB_unknown_customer orderInfo userData env w :
  find_customer (userEmail userData) (db w) = None →
  createOrderIntoDB orderInfo userData env w
    = (Throw (ApiError 404 "Customer not found for payment"), w).
Proof.
  intros H. unfold createOrderIntoDB, prisma_customer_findUnique, bind, getDB, ret, throw.
  rewrite H. reflexivity.
Qed.

(** A shop id is among the blacklisted ids exactly when some shop row with
    that id has the flag set. *)
Lemma includes_blacklisted d shopId :
  includes (map Shop.shopId (List.filter Shop.isBlackListed (shops d))) shopId = true
  ↔ ∃ s, In s (shops d) ∧ Shop.shopId s = shopId ∧ Shop.isBlackListed s = true.
Proof.
  unfold includes. rewrite existsb_exists. split.
  - intros (i & Hi & Heq). apply bool_decide_eq_true in Heq. subst i.
    apply in_map_iff in Hi as (s & Hs & Hin).
    apply filter_In in Hin as [Hin Hb]. eauto.
  - intros (s & Hin & Hid & Hb). exists shopId. split.
    + apply in_map_iff. exists s. split; [done|]. apply filter_In. done.
    + by apply bool_decide_eq_true.
Qed.

(** The steps of createOrderIntoDB once the customer is found. *)
Lemma createOrderIntoDB_found orderInfo userData env w c :
  find_customer (userEmail userData) (db w) = Some c →
  createOrderIntoDB orderInfo userData env w =
    match List.find
            (λ item, includes (map Shop.shopId (List.filter Shop.isBlackListed (shops (db w))))
                       (IOrderItem.shopId item))
            (IOrderRequest.items orderInfo) with
    | Some bad =>
        (Throw (ApiError 400 ("Order cannot be placed as shop "
                                +:+ IOrderItem.shopId bad +:+ " is blacklisted.")), w)
    | None =>
        bind (prisma_order_create env
                (OrderCreateInput.mk
                   (IOrderRequest.couponId orderInfo) (IOrderRequest.subTotal orderInfo)
                   (IOrderRequest.total orderInfo) (IOrderRequest.discounts orderInfo)
                   (Customer.customerId c) (generateTransactionId env) "PENDING"
                   (IOrderRequest.items orderInfo)))
          (λ orderData,
             bind (call_initiatePayment
                     {| orderData := Order.subTotal orderData;
                        txn := Order.transactionId orderData;
                        customerData := c;
                        orderId := Order.id orderData |})
               (λ paymentInfo,
                  ret {| order := orderData; payLink := payment_url paymentInfo |})) w
    end.
Proof.
  intros H.
  unfold createOrderIntoDB, prisma_customer_findUnique, prisma_shop_findMany_blacklisted.
  unfold bind at 1 2. unfold getDB at 1. unfold ret at 1. rewrite H.
  unfold bind at 1 2. unfold getDB at 1. unfold ret at 1.
  destruct (List.find _ _); reflexivity.
Qed.

(** C1 (amended): when the caller is a known customer and some line item
    references a shop whose blacklist flag is set, createOrderIntoDB raises
    the error with code 400 whose message names the shop id of such a line
    item; the database is as before and no payment request has gone out. *)
Theorem createOrderIntoDB_blacklisted_shop orderInfo userData env w c :
  find_customer (userEmail userData) (db w) = Some c →
  (∃ item s, In item (IOrderRequest.items orderInfo) ∧ In s (shops (db w))
             ∧ Shop.shopId s = IOrderItem.shopId item ∧ Shop.isBlackListed s = true) →
  ∃ bad s,
    In bad (IOrderRequest.items orderInfo) ∧ In s (shops (db w))
    ∧ Shop.shopId s = IOrderItem.shopId bad ∧ Shop.isBlackListed s = true
    ∧ createOrderIntoDB orderInfo userData env w
      = (Throw (ApiError 400 ("Order cannot be placed as shop "
                                +:+ IOrderItem.shopId bad +:+ " is blacklisted.")), w).
Proof.
  intros Hc (item & s & Hitem & Hs & Hid & Hb).
  rewrite (createOrderIntoDB_found _ _ _ _ _ Hc).
  destruct (List.find _ _) as [bad|] eqn:Hfind.
  - apply find_some in Hfind as [Hin Hinc].
    apply includes_blacklisted in Hinc as (s' & Hs' & Hid' & Hb').
    exists bad, s'. done.
  - exfalso. pose proof (find_none _ _ Hfind item Hitem) as Hn. simpl in Hn.
    assert (includes (map Shop.shopId (List.filter Shop.isBlackListed (shops (db w))))
              (IOrderItem.shopId item) = true) as Ht
      by (apply includes_blacklisted; eauto).
    congruence.
Qed.

(** The order is written whole or not at all: when the database refuses the
    insert, nothing is stored and no payment request goes out. *)
Lemma createOrderIntoDB_refused orderInfo userData env w c :
  find_customer (userEmail userData) (db w) = Some c →
  (∀ item s, In item (IOrderRequest.items orderInfo) → In s (shops (db w)) →
             Shop.shopId s = IOrderItem.shopId item → Shop.isBlackListed s = false) →
  (find_order (newOrderId env) (db w) ≠ None
   ∨ schema_accepts (db w)
       (order_row_of env
          (OrderCreateInput.mk
             (IOrderRequest.couponId orderInfo) (IOrderRequest.subTotal orderInfo)
             (IOrderRequest.total orderInfo) (IOrderRequest.discounts orderInfo)
             (Customer.customerId c) (generateTransactionId env) "PENDING"
             (IOrderRequest.items orderInfo)))
       (map (item_row_of env) (IOrderRequest.items orderInfo)) = false) →
  createOrderIntoDB orderInfo userData env w = (Throw PrismaConstraintError, w).
Proof.
  intros Hc Hclean Hrej.
  rewrite (createOrderIntoDB_found _ _ _ _ _ Hc).
  destruct (List.find _ _) as [bad|] eqn:Hfind.
  - apply find_some in Hfind as [Hin Hinc].
    apply includes_blacklisted in Hinc as (s' & Hs' & Hid' & Hb').
    rewrite (Hclean _ _ Hin Hs' Hid') in Hb'. discriminate.
  - run_M.
    destruct (find_order (newOrderId env) (db w)) eqn:Hfresh; [reflexivity|].
    destruct Hrej as [Hrej|Hrej]; [done|].
    unfold order_row_of in *. simpl in *. rewrite Hrej. reflexivity.
Qed.

(** C7: when the customer is known, no line item references a blacklisted
    shop and the database accepts the insert, createOrderIntoDB adds one
    order row, with the payload's amounts, the customer's id, payment status
    PENDING and the transaction id TXN-<clock>-<random suffix>, together
    with one item row per line item; it sends one payment request carrying
    that order's subtotal, transaction id and id; and it returns the stored
    order row with the payment link of the response (or raises what the
    payment call raised, the order staying stored). *)
Theorem createOrderIntoDB_persists_and_pays orderInfo userData env w c :
  find_customer (userEmail userData) (db w) = Some c →
  (∀ item s, In item (IOrderRequest.items orderInfo) → In s (shops (db w)) →
             Shop.shopId s = IOrderItem.shopId item → Shop.isBlackListed s = false) →
  find_order (newOrderId env) (db w) = None →
  let transactionId := "TXN-" +:+ pretty (dateNow env) +:+ "-" +:+ pretty (randomNum env) in
  let o :=
    Order.mk (newOrderId env) (IOrderRequest.couponId orderInfo)
      (IOrderRequest.subTotal orderInfo) (IOrderRequest.total orderInfo)
      (IOrderRequest.discounts orderInfo) (Customer.customerId c)
      transactionId "PENDING" default_status (newCreatedAt env) in
  let its :=
    map (λ i, OrderItem.mk (newOrderId env) (IOrderItem.shopId i) (IOrderItem.productId i)
                (IOrderItem.size i) (IOrderItem.quantity i) (IOrderItem.price i)
                (IOrderItem.discount i))
        (IOrderRequest.items orderInfo) in
  let req :=
    {| orderData := IOrderRequest.subTotal orderInfo; txn := transactionId;
       customerData := c; orderId := newOrderId env |} in
  schema_accepts (db w) o its = true →
  createOrderIntoDB orderInfo userData env w
    = (match initiatePayment req with
       | Ok paymentInfo => Ok {| order := o; payLink := payment_url paymentInfo |}
       | Throw e => Throw e
       end,
       {| db := {| customers := customers (db w); vendors := vendors (db w);
                   shops := shops (db w);
                   orders := orders (db w) ++ [o];
                   orderItems := orderItems (db w) ++ its |};
          paymentCalls := paymentCalls w ++ [req];
          console := console w |}).
Proof.
  intros Hc Hclean Hfresh transactionId o its req Hacc.
  rewrite (createOrderIntoDB_found _ _ _ _ _ Hc).
  destruct (List.find _ _) as [bad|] eqn:Hfind.
  - apply find_some in Hfind as [Hin Hinc].
    apply includes_blacklisted in Hinc as (s' & Hs' & Hid' & Hb').
    rewrite (Hclean _ _ Hin Hs' Hid') in Hb'. discriminate.
  - subst transactionId o its req. run_M. rewrite Hfresh.
    unfold order_row_of, item_row_of, generateTransactionId in *. simpl in *.
    rewrite Hacc. simpl.
    destruct (initiatePayment _); reflexivity.
Qed.

(** *** Ordering and slicing *)

Lemma split_no_sep sep s : has_char sep s = false → split sep s = [s].
Proof.
  induction s as [|c s IH]; simpl; [done|].
  intros H. apply orb_false_iff in H as [Hc Hs].
  rewrite (IH Hs), Hc. reflexivity.
Qed.

Lemma split_app_sep sep f d :
  has_char sep f = false → split sep (f +:+ String sep d) = f :: split sep d.
Proof.
  induction f as [|c f IH]; simpl.
  - intros _. destruct (split sep d) eqn:E.
    + destruct d; simpl in E; [discriminate|].
      destruct (split sep d); [discriminate|]. by case_bool_decide.
    + by rewrite bool_decide_eq_true_2.
  - intros H. apply orb_false_iff in H as [Hc Hs].
    rewrite (IH Hs), Hc. reflexivity.
Qed.

Lemma orderBy_of_field_direction p l field dir :
  has_char "-" field = false → has_char "-" dir = false →
  orderBy_of (IPaginationOptions.mk p l (Some (field +:+ "-" +:+ dir)))
    = {| ob_field := field; ob_direction := Some dir |}.
Proof.
  intros Hf Hd. unfold orderBy_of. simpl.
  change ("-" +:+ dir) with (String "-" dir).
  rewrite (split_app_sep _ _ _ Hf), (split_no_sep _ _ Hd). simpl.
  destruct (String.eqb _ "") eqn:E; [|reflexivity].
  apply String.eqb_eq in E. destruct field; discriminate.
Qed.

Lemma order_rows_Permutation ob l l' : order_rows ob l = Some l' → l' ≡ₚ l.
Proof.
  unfold order_rows. destruct (ob_direction ob); [|by intros [= <-]].
  destruct (order_le _); [|done].
  repeat case_bool_decide; intros [= <-]; apply merge_sort_Permutation.
Qed.

Lemma StronglySorted_weaken {A} (R1 R2 : relation A) l :
  (∀ a b, R1 a b → R2 a b) → StronglySorted R1 l → StronglySorted R2 l.
Proof.
  intros HR. induction 1 as [|x l Hs IH Hall]; constructor; [done|].
  eapply Forall_impl; [exact Hall|]. intros y. apply HR.
Qed.

Lemma StronglySorted_rev {A} (R : relation A) l :
  StronglySorted R l → StronglySorted (flip R) (rev l).
Proof.
  induction 1 as [|x l Hs IH Hall]; simpl; [constructor|].
  apply StronglySorted_app. split_and!.
  - intros a b Ha Hb. apply list_elem_of_singleton in Hb as ->.
    apply list_elem_of_In, in_rev, list_elem_of_In in Ha. unfold flip.
    by eapply Forall_forall in Hall.
  - done.
  - repeat constructor.
Qed.

Lemma StronglySorted_take {A} (R : relation A) n l :
  StronglySorted R l → StronglySorted R (take n l).
Proof.
  intros H. rewrite <- (take_drop n l) in H. by apply StronglySorted_app_1_l in H.
Qed.

Lemma StronglySorted_drop {A} (R : relation A) n l :
  StronglySorted R l → StronglySorted R (drop n l).
Proof.
  intros H. rewrite <- (take_drop n l) in H. by apply StronglySorted_app_1_r in H.
Qed.

Lemma slice_sorted (R : relation Order.t) skip take l :
  StronglySorted R l → StronglySorted R (slice skip take l).
Proof.
  intros H. unfold slice. destruct (Z.leb 0 take).
  - by apply StronglySorted_take, StronglySorted_drop.
  - apply (StronglySorted_rev (flip R)).
    by apply StronglySorted_take, StronglySorted_drop, StronglySorted_rev.
Qed.

Lemma slice_In skip take l o : In o (slice skip take l) → In o l.
Proof.
  unfold slice. destruct (Z.leb 0 take); intros H.
  - apply list_elem_of_In in H. apply list_elem_of_In.
    eapply elem_of_sublist; [exact H|].
    etrans; [apply sublist_take|apply sublist_drop].
  - apply in_rev in H. apply in_rev.
    apply list_elem_of_In in H. apply list_elem_of_In.
    eapply elem_of_sublist; [exact H|].
    etrans; [apply sublist_take|apply sublist_drop].
Qed.

Lemma slice_all take l :
  Z.of_nat (length l) ≤ take → slice 0 take l = l.
Proof.
  intros H. unfold slice. rewrite (proj2 (Z.leb_le 0 take)) by lia.
  simpl. apply take_ge. lia.
Qed.

Lemma order_rows_default_sorted l l' :
  order_rows {| ob_field := "createdAt"; ob_direction := Some "desc" |} l = Some l' →
  StronglySorted newer_first l'.
Proof.
  unfold order_rows, order_le. simpl. intros [= <-].
  set (R := λ a b : Order.t, Is_true (bool_decide (Order.createdAt b ≤ Order.createdAt a))).
  assert (Transitive R).
  { intros a b c Hab Hbc. unfold R in *.
    apply bool_decide_unpack in Hab, Hbc. apply bool_decide_pack. lia. }
  assert (Total R).
  { intros a b. unfold R.
    destruct (decide (Order.createdAt b ≤ Order.createdAt a)).
    - left. by apply bool_decide_pack.
    - right. apply bool_decide_pack. lia. }
  apply (StronglySorted_weaken R); [|by apply StronglySorted_merge_sort].
  intros a b Hab. by apply bool_decide_unpack in Hab.
Qed.

Lemma map_row_with_relations d inc l : map row (map (with_relations d inc) l) = l.
Proof. induction l as [|o l IH]; simpl; [done|]. by rewrite IH. Qed.

Lemma filter_all_length {A} (l : list A) : length (List.filter (λ _, true) l) = length l.
Proof. induction l; simpl; congruence. Qed.

(** *** The listings as queries *)

(** The customer listing: one findMany under the customer's condition, one
    count with no condition at all. *)
Lemma getSingleCustomerAllOrder_run userInfo paginationData params w :
  getSingleCustomerAllOrder userInfo paginationData params w =
    let pg := calculatePagination paginationData in
    match run_findMany (db w)
            {| fm_where :=
                 Some (WAnd (customer_where
                               (Customer.customerId
                                  <$> find_customer (userEmail userInfo) (db w))
                               params));
               fm_include := {| include_shop := false; include_customer := false |};
               fm_skip := Pagination.skip pg;
               fm_take := Pagination.limit pg;
               fm_orderBy := orderBy_of paginationData |} with
    | Ok rows => (Ok (envelope pg (Z.of_nat (length (orders (db w)))) rows), w)
    | Throw e => (Throw e, w)
    end.
Proof.
  unfold getSingleCustomerAllOrder. run_M.
  destruct (run_findMany _ _); [|reflexivity].
  unfold run_count. simpl. rewrite filter_all_length. reflexivity.
Qed.

Lemma getPendingOrder_run paginationData w :
  getPendingOrder paginationData w =
    let pg := calculatePagination paginationData in
    match run_findMany (db w)
            {| fm_where := Some (WStatusNot "DELIVERED");
               fm_include := {| include_shop := true; include_customer := true |};
               fm_skip := Pagination.skip pg;
               fm_take := Pagination.limit pg;
               fm_orderBy := orderBy_of paginationData |} with
    | Ok rows =>
        (Ok (envelope pg (Z.of_nat (length (List.filter not_delivered (orders (db w)))))
               rows), w)
    | Throw e => (Throw e, w)
    end.
Proof.
  unfold getPendingOrder. run_M.
  destruct (run_findMany _ _); reflexivity.
Qed.

Lemma getSpecificShopOrder_run userData paginationData params w vendor :
  List.find (λ v, bool_decide (Vendor.email v = userEmail userData)) (vendors (db w))
    = Some vendor →
  getSpecificShopOrder userData paginationData params w =
    let pg := calculatePagination paginationData in
    let andCondtion := vendor_where (Vendor.vendorId vendor) params in
    let w1 := {| db := db w; paymentCalls := paymentCalls w;
                 console := console w ++ [ConsoleDir andCondtion] |} in
    let w2 := {| db := db w; paymentCalls := paymentCalls w;
                 console := (console w ++ [ConsoleDir andCondtion])
                              ++ [ConsoleLog (Pagination.skip pg)] |} in
    match run_findMany (db w)
            {| fm_where := Some (WAnd andCondtion);
               fm_include := {| include_shop := false; include_customer := true |};
               fm_skip := Pagination.skip pg;
               fm_take := Pagination.limit pg;
               fm_orderBy := orderBy_of paginationData |} with
    | Ok rows =>
        match run_count (db w) (Some (WAnd andCondtion)) with
        | Ok total => (Ok (envelope pg total rows), w2)
        | Throw e => (Throw e, w2)
        end
    | Throw e => (Throw e, w1)
    end.
Proof.
  intros Hv. unfold getSpecificShopOrder. run_M. rewrite Hv. simpl.
  destruct (run_findMany _ _); [|reflexivity]. simpl.
  destruct (run_count _ _); reflexivity.
Qed.

(** Math.ceil(total / limit) by what a ceiling is, for a total that is not
    negative: the integer q with q - 1 < total / limit ≤ q when limit is not
    0 (written without the division, and as negative zero when q is 0 under
    a negative limit), NaN for 0 / 0 and Infinity for a positive total over
    0. *)
Lemma math_ceil_div_ceiling total limit :
  0 ≤ total →
  (0 < limit →
     ∃ q, math_ceil_div total limit = Finite q
          ∧ (q - 1) * limit < total ≤ q * limit)
  ∧ (limit = 0 →
       math_ceil_div total limit = if Z.eqb total 0 then NaN else PosInfinity)
  ∧ (limit < 0 →
       ∃ q, q * limit ≤ total < (q - 1) * limit
            ∧ math_ceil_div total limit = if Z.eqb q 0 then NegZero else Finite q).
Proof.
  intros Htotal. unfold math_ceil_div. split_and!.
  - intros Hlimit. rewrite (proj2 (Z.eqb_neq _ 0)) by lia.
    exists (- (- total / limit)). split.
    + replace (Z.ltb total 0) with false by (symmetry; apply Z.ltb_ge; lia).
      replace (Z.ltb limit 0) with false by (symmetry; apply Z.ltb_ge; lia).
      simpl. by rewrite !andb_false_r.
    + pose proof (Z.div_mod (- total) limit ltac:(lia)) as Hdm.
      pose proof (Z.mod_pos_bound (- total) limit Hlimit) as Hmod. nia.
  - intros ->. simpl. destruct (Z.eqb_spec total 0); [done|].
    by rewrite (proj2 (Z.ltb_lt 0 total)) by lia.
  - intros Hlimit. rewrite (proj2 (Z.eqb_neq _ 0)) by lia.
    exists (- (- total / limit)). split.
    + pose proof (Z.div_mod (- total) limit ltac:(lia)) as Hdm.
      pose proof (Z.mod_neg_bound (- total) limit Hlimit) as Hmod. nia.
    + replace (Z.ltb total 0) with false by (symmetry; apply Z.ltb_ge; lia).
      rewrite (proj2 (Z.leb_le 0 total)) by lia.
      rewrite (proj2 (Z.ltb_lt limit 0)) by lia.
      simpl. rewrite andb_true_r. by destruct (Z.eqb _ 0).
Qed.

(** C5: when the data query of the customer listing is accepted, the
    listing returns the envelope whose total is the number of all orders in
    the database and whose totalPage is the ceiling of that number over the
    limit (the integer q with q - 1 < total / limit ≤ q; NaN or Infinity at
    limit 0); the number of orders matching the listing's own
    where-condition is a different count, never larger, and does not enter
    the envelope. *)
Theorem getSingleCustomerAllOrder_total_is_all_orders
    userInfo paginationData params w rows :
  let pg := calculatePagination paginationData in
  let whereConditons :=
    WAnd (customer_where
            (Customer.customerId <$> find_customer (userEmail userInfo) (db w)) params) in
  let all := Z.of_nat (length (orders (db w))) in
  run_findMany (db w)
    {| fm_where := Some whereConditons;
       fm_include := {| include_shop := false; include_customer := false |};
       fm_skip := Pagination.skip pg;
       fm_take := Pagination.limit pg;
       fm_orderBy := orderBy_of paginationData |} = Ok rows →
  ∃ totalPage,
    getSingleCustomerAllOrder userInfo paginationData params w
      = (Ok {| meta := Meta.mk (Pagination.page pg) (Pagination.limit pg) all totalPage;
               data := rows |}, w)
    ∧ totalPage = math_ceil_div all (Pagination.limit pg)
    ∧ (0 < Pagination.limit pg →
         ∃ q, totalPage = Finite q
              ∧ (q - 1) * Pagination.limit pg < all ≤ q * Pagination.limit pg)
    ∧ (Pagination.limit pg = 0 →
         totalPage = if Z.eqb all 0 then NaN else PosInfinity)
    ∧ (Pagination.limit pg < 0 →
         ∃ q, q * Pagination.limit pg ≤ all < (q - 1) * Pagination.limit pg
              ∧ totalPage = if Z.eqb q 0 then NegZero else Finite q)
    ∧ ∃ matching, run_count (db w) (Some whereConditons) = Ok matching ∧ matching ≤ all.
Proof.
  intros pg whereConditons all Hrun.
  exists (math_ceil_div all (Pagination.limit pg)).
  destruct (math_ceil_div_ceiling all (Pagination.limit pg)) as (Hpos & Hzero & Hneg);
    [unfold all; lia|].
  split_and!; try done.
  - rewrite getSingleCustomerAllOrder_run. fold pg whereConditons. simpl.
    rewrite Hrun. reflexivity.
  - unfold run_findMany, run_count, compile_where_opt in *.
    cbn [fm_where] in Hrun.
    destruct (compile_where (db w) whereConditons) as [p|]; [|discriminate].
    eexists; split; [reflexivity|]. unfold all.
    apply inj_le, List.filter_length_le.
Qed.

Lemma not_delivered_spec o : not_delivered o = true ↔ Order.status o ≠ "DELIVERED".
Proof.
  unfold not_delivered. rewrite negb_true_iff. split.
  - intros H. by apply bool_decide_eq_false in H.
  - intros H. by apply bool_decide_eq_false.
Qed.

(** C6: when the ordering asked for is accepted and skip is not negative,
    getPendingOrder returns the envelope {meta, data} with page, limit,
    total and totalPage, where total counts the orders whose status is not
    DELIVERED, totalPage is the ceiling of total over limit (the integer q
    with q - 1 < total / limit ≤ q; NaN or Infinity at limit 0), and data is
    the page (skip, limit) of exactly those orders in the ordering; every
    order returned is an order of the database that is not DELIVERED, and a
    page that starts at 0 and is at least as long as total holds all of
    them. *)
Theorem getPendingOrder_returns_undelivered paginationData w sorted :
  let pg := calculatePagination paginationData in
  let pending := List.filter not_delivered (orders (db w)) in
  let total := Z.of_nat (length pending) in
  order_rows (orderBy_of paginationData) pending = Some sorted →
  0 ≤ Pagination.skip pg →
  ∃ rows totalPage,
    getPendingOrder paginationData w
      = (Ok {| meta := Meta.mk (Pagination.page pg) (Pagination.limit pg) total totalPage;
               data := rows |}, w)
    ∧ totalPage = math_ceil_div total (Pagination.limit pg)
    ∧ (0 < Pagination.limit pg →
         ∃ q, totalPage = Finite q
              ∧ (q - 1) * Pagination.limit pg < total ≤ q * Pagination.limit pg)
    ∧ (Pagination.limit pg = 0 →
         totalPage = if Z.eqb total 0 then NaN else PosInfinity)
    ∧ (Pagination.limit pg < 0 →
         ∃ q, q * Pagination.limit pg ≤ total < (q - 1) * Pagination.limit pg
              ∧ totalPage = if Z.eqb q 0 then NegZero else Finite q)
    ∧ run_count (db w) (Some (WStatusNot "DELIVERED")) = Ok total
    ∧ map row rows = slice (Pagination.skip pg) (Pagination.limit pg) sorted
    ∧ sorted ≡ₚ pending
    ∧ (∀ o, In o pending ↔ In o (orders (db w)) ∧ Order.status o ≠ "DELIVERED")
    ∧ (∀ r, In r rows →
            In (row r) (orders (db w)) ∧ Order.status (row r) ≠ "DELIVERED")
    ∧ (Pagination.skip pg = 0 → total ≤ Pagination.limit pg →
         map row rows ≡ₚ pending).
Proof.
  intros pg pending total Hsort Hskip.
  assert (Hperm : sorted ≡ₚ pending) by (by eapply order_rows_Permutation).
  assert (Hpending : ∀ o, In o pending
                          ↔ In o (orders (db w)) ∧ Order.status o ≠ "DELIVERED").
  { intros o. unfold pending. rewrite filter_In, not_delivered_spec. done. }
  destruct (math_ceil_div_ceiling total (Pagination.limit pg)) as (Hpos & Hzero & Hneg);
    [unfold total; lia|].
  exists (map (with_relations (db w) {| include_shop := true; include_customer := true |})
            (slice (Pagination.skip pg) (Pagination.limit pg) sorted)),
         (math_ceil_div total (Pagination.limit pg)).
  split_and!.
  - rewrite getPendingOrder_run. fold pg. unfold run_findMany. simpl.
    change (List.filter _ (orders (db w))) with pending.
    rewrite Hsort. rewrite (proj2 (Z.ltb_ge _ _) Hskip). reflexivity.
  - reflexivity.
  - exact Hpos.
  - exact Hzero.
  - exact Hneg.
  - reflexivity.
  - apply map_row_with_relations.
  - exact Hperm.
  - exact Hpending.
  - intros r Hr. apply (in_map row) in Hr. rewrite map_row_with_relations in Hr.
    apply slice_In in Hr. apply Hpending.
    apply list_elem_of_In. rewrite <- Hperm. by apply list_elem_of_In.
  - intros H0 Hle. rewrite map_row_with_relations, H0.
    rewrite slice_all; [done|]. rewrite Hperm. exact Hle.
Qed.

(** *** Filters from query parameters *)

Lemma object_keys_In (o : gmap string JSValue) k :
  In k (object_keys o) ↔ is_Some (o !! k).
Proof.
  unfold object_keys. rewrite <- list_elem_of_In, list_elem_of_fmap. split.
  - intros ([k' v] & -> & Hin). apply elem_of_map_to_list in Hin. by exists v.
  - intros [v Hv]. exists (k, v). split; [done|]. by apply elem_of_map_to_list.
Qed.

Lemma filter_conjuncts_In (filterData : gmap string JSValue) k v :
  In (WFieldEquals k v) (filter_conjuncts filterData)
  ↔ filterData !! k = Some v ∧ truthy v = true.
Proof.
  unfold filter_conjuncts. rewrite in_map_iff. split.
  - intros (f & Heq & Hin). injection Heq as -> <-.
    apply filter_In in Hin as [Hkey Ht]. apply object_keys_In in Hkey as [x Hx].
    unfold get_property in *. rewrite Hx in *. done.
  - intros [Hk Ht]. exists k. unfold get_property. rewrite Hk. split; [done|].
    apply filter_In. split.
    + apply object_keys_In. by exists v.
    + unfold get_property. by rewrite Hk.
Qed.

Lemma filter_conjuncts_only_equalities (filterData : gmap string JSValue) c :
  In c (filter_conjuncts filterData) → ∃ k v, c = WFieldEquals k v.
Proof.
  unfold filter_conjuncts. rewrite in_map_iff. intros (f & <- & _). eauto.
Qed.

Lemma filter_condition_conjunct (filterData : gmap string JSValue) own k v :
  (∀ k' v', own ≠ WFieldEquals k' v') →
  conjunct_of (WFieldEquals k v) (filter_condition filterData ++ [WAnd [own]])
  ↔ filterData !! k = Some v ∧ truthy v = true.
Proof.
  intros Hown. unfold conjunct_of. split.
  - intros (conds & Hin & Hc). apply in_app_iff in Hin as [Hin|Hin].
    + unfold filter_condition in Hin. destruct (Nat.ltb _ _); [|done].
      destruct Hin as [[= <-]|[]]. by apply filter_conjuncts_In.
    + destruct Hin as [[= <-]|[]]. destruct Hc as [Hc|[]].
      exfalso. by eapply Hown.
  - intros H. exists (filter_conjuncts filterData). split.
    + apply in_app_iff. left. unfold filter_condition.
      assert (In k (object_keys filterData)) as Hk
        by (apply object_keys_In; destruct H as [H _]; by exists v).
      destruct (object_keys filterData); [done|]. simpl. by left.
    + by apply filter_conjuncts_In.
Qed.

Lemma rest_without_searchTerm_lookup (params : gmap string JSValue) k v :
  rest_without_searchTerm params !! k = Some v
  ↔ k ≠ "searchTerm" ∧ params !! k = Some v.
Proof.
  unfold rest_without_searchTerm. rewrite lookup_delete_Some.
  split; intros [H1 H2]; split; congruence.
Qed.

(** C8 (amended): in the customer and the vendor listing, every query
    parameter other than searchTerm whose value is truthy contributes the
    conjunct that equates its field to its value to an AND block of the
    where-condition, and no other field equality is there (falsy values and
    searchTerm contribute none); the condition and the ordering so built
    are what the data query runs with; a sort string field-direction is
    split at the dash into the field and the direction of the ordering; and
    without a sort the ordering is createdAt descending, so that the rows
    returned are newest first. *)
Theorem listing_filter_and_sort userInfo paginationData params w :
  let pg := calculatePagination paginationData in
  let customerId := Customer.customerId <$> find_customer (userEmail userInfo) (db w) in
  (∀ k v, conjunct_of (WFieldEquals k v) (customer_where customerId params)
          ↔ k ≠ "searchTerm" ∧ params !! k = Some v ∧ truthy v = true)
  ∧ (∀ vendorId k v,
       conjunct_of (WFieldEquals k v) (vendor_where vendorId params)
       ↔ k ≠ "searchTerm" ∧ params !! k = Some v ∧ truthy v = true)
  ∧ fst (getSingleCustomerAllOrder userInfo paginationData params w)
    = match run_findMany (db w)
              {| fm_where := Some (WAnd (customer_where customerId params));
                 fm_include := {| include_shop := false; include_customer := false |};
                 fm_skip := Pagination.skip pg;
                 fm_take := Pagination.limit pg;
                 fm_orderBy := orderBy_of paginationData |} with
      | Ok rows => Ok (envelope pg (Z.of_nat (length (orders (db w)))) rows)
      | Throw e => Throw e
      end
  ∧ (∀ vendor,
       List.find (λ v, bool_decide (Vendor.email v = userEmail userInfo)) (vendors (db w))
         = Some vendor →
       fst (getSpecificShopOrder userInfo paginationData params w)
       = match run_findMany (db w)
                 {| fm_where := Some (WAnd (vendor_where (Vendor.vendorId vendor) params));
                    fm_include := {| include_shop := false; include_customer := true |};
                    fm_skip := Pagination.skip pg;
                    fm_take := Pagination.limit pg;
                    fm_orderBy := orderBy_of paginationData |},
               run_count (db w)
                 (Some (WAnd (vendor_where (Vendor.vendorId vendor) params))) with
         | Ok rows, Ok total => Ok (envelope pg total rows)
         | Ok _, Throw e => Throw e
         | Throw e, _ => Throw e
         end)
  ∧ (∀ field dir,
       has_char "-" field = false → has_char "-" dir = false →
       IPaginationOptions.sort paginationData = Some (field +:+ "-" +:+ dir) →
       orderBy_of paginationData = {| ob_field := field; ob_direction := Some dir |})
  ∧ (IPaginationOptions.sort paginationData = None →
       orderBy_of paginationData
         = {| ob_field := "createdAt"; ob_direction := Some "desc" |}
       ∧ ∀ cond inc skip take rows,
           run_findMany (db w)
             {| fm_where := cond; fm_include := inc; fm_skip := skip; fm_take := take;
                fm_orderBy := orderBy_of paginationData |} = Ok rows →
           StronglySorted newer_first (map row rows)).
Proof.
  intros pg customerId. split_and!.
  - intros k v. unfold customer_where.
    rewrite filter_condition_conjunct by done.
    rewrite rest_without_searchTerm_lookup.
    split; [intros [[? ?] ?]|intros (? & ? & ?)]; done.
  - intros vendorId k v. unfold vendor_where.
    rewrite filter_condition_conjunct by done.
    rewrite rest_without_searchTerm_lookup.
    split; [intros [[? ?] ?]|intros (? & ? & ?)]; done.
  - rewrite getSingleCustomerAllOrder_run. fold pg customerId. simpl.
    destruct (run_findMany _ _); reflexivity.
  - intros vendor Hv. rewrite (getSpecificShopOrder_run _ _ _ _ _ Hv). fold pg. simpl.
    destruct (run_findMany _ _); [|reflexivity].
    destruct (run_count _ _); reflexivity.
  - intros field dir Hf Hd Hsort.
    destruct paginationData as [p l s]. simpl in Hsort. subst s.
    by apply orderBy_of_field_direction.
  - intros Hsort.
    assert (orderBy_of paginationData
            = {| ob_field := "createdAt"; ob_direction := Some "desc" |}) as Hob
      by (unfold orderBy_of; by rewrite Hsort).
    split; [exact Hob|].
    intros cond inc skip take rows. rewrite Hob. unfold run_findMany.
    cbn [fm_where fm_include fm_skip fm_take fm_orderBy].
    destruct (compile_where_opt _ _) as [p|]; [|done].
    destruct (order_rows _ _) as [sorted|] eqn:Hsorted; [|done].
    destruct (Z.ltb skip 0); [done|]. intros [= <-].
    rewrite map_row_with_relations.
    by apply slice_sorted, (order_rows_default_sorted _ _ Hsorted).
Qed.

(** C9: two calls of the customer listing, or of the vendor listing, whose
    query parameters agree on every key other than searchTerm give the same
    result and leave the same world, console output included. *)
Theorem searchTerm_has_no_effect userInfo paginationData
    (params1 params2 : gmap string JSValue) w :
  (∀ k, k ≠ "searchTerm" → params1 !! k = params2 !! k) →
  getSingleCustomerAllOrder userInfo paginationData params1 w
    = getSingleCustomerAllOrder userInfo paginationData params2 w
  ∧ getSpecificShopOrder userInfo paginationData params1 w
    = getSpecificShopOrder userInfo paginationData params2 w.
Proof.
  intros Hagree.
  assert (rest_without_searchTerm params1 = rest_without_searchTerm params2) as Hrest.
  { apply map_eq. intros k. unfold rest_without_searchTerm.
    destruct (decide (k = "searchTerm")) as [->|Hne].
    - by rewrite !lookup_delete_eq.
    - rewrite !lookup_delete_ne by done. by apply Hagree. }
  unfold getSingleCustomerAllOrder, getSpecificShopOrder, customer_where, vendor_where.
  rewrite Hrest. done.
Qed.

(** C10: when no customer has the caller's email, the customer listing
    raises neither the 404 error of createOrderIntoDB nor any ApiError nor a
    not-found error; it runs its data query with the ownership conjunct
    { customerId: undefined } and, when that query is accepted, returns the
    envelope {meta, data} and leaves the world as it was. *)
Theorem getSingleCustomerAllOrder_unknown_customer userInfo paginationData params w :
  find_customer (userEmail userInfo) (db w) = None →
  let pg := calculatePagination paginationData in
  let query :=
    run_findMany (db w)
      {| fm_where :=
           Some (WAnd (filter_condition (rest_without_searchTerm params)
                         ++ [WAnd [WCustomerId None]]));
         fm_include := {| include_shop := false; include_customer := false |};
         fm_skip := Pagination.skip pg;
         fm_take := Pagination.limit pg;
         fm_orderBy := orderBy_of paginationData |} in
  (∀ statusCode message,
     fst (getSingleCustomerAllOrder userInfo paginationData params w)
       ≠ Throw (ApiError statusCode message))
  ∧ fst (getSingleCustomerAllOrder userInfo paginationData params w)
      ≠ Throw PrismaNotFoundError
  ∧ (∀ e, fst (getSingleCustomerAllOrder userInfo paginationData params w) = Throw e →
          e = PrismaValidationError ∧ query = Throw e)
  ∧ (∀ rows, query = Ok rows →
       getSingleCustomerAllOrder userInfo paginationData params w
         = (Ok {| meta := Meta.mk (Pagination.page pg) (Pagination.limit pg)
                            (Z.of_nat (length (orders (db w))))
                            (math_ceil_div (Z.of_nat (length (orders (db w))))
                               (Pagination.limit pg));
                  data := rows |}, w)).
Proof.
  intros Hc pg query.
  assert (Hrun : getSingleCustomerAllOrder userInfo paginationData params w
                 = match query with
                   | Ok rows => (Ok (envelope pg (Z.of_nat (length (orders (db w)))) rows), w)
                   | Throw e => (Throw e, w)
                   end).
  { rewrite getSingleCustomerAllOrder_run, Hc. reflexivity. }
  assert (Hval : ∀ e, query = Throw e → e = PrismaValidationError).
  { intros e. unfold query, run_findMany.
    destruct (compile_where_opt _ _); [|by intros [= <-]].
    destruct (order_rows _ _); [|by intros [= <-]].
    destruct (Z.ltb _ _); [by intros [= <-]|done]. }
  rewrite Hrun. split_and!.
  - intros statusCode message. destruct query as [rows|e] eqn:Hq; simpl; [done|].
    rewrite (Hval e eq_refl). done.
  - destruct query as [rows|e] eqn:Hq; simpl; [done|].
    rewrite (Hval e eq_refl). done.
  - intros e. destruct query as [rows|e'] eqn:Hq; simpl; [done|].
    intros [= ->]. split; [by apply Hval|done].
  - intros rows ->. reflexivity.
Qed.

(** ** Further properties of the service *)

(** *** Where-conditions *)

(** An AND block stands for the conjunction of what its members stand for,
    and is refused exactly when one of its members is. *)
Lemma compile_where_and d l :
  match compile_where d (WAnd l) with
  | Some p =>
      Forall (λ c, is_Some (compile_where d c)) l
      ∧ ∀ o, p o = forallb (λ c, match compile_where d c with
                                 | Some q => q o
                                 | None => false
                                 end) l
  | None => Exists (λ c, compile_where d c = None) l
  end.
Proof.
  induction l as [|c l IH].
  - simpl. split; [constructor|done].
  - change (compile_where d (WAnd (c :: l)))
      with (match compile_where d c, compile_where d (WAnd l) with
            | Some p, Some q => Some (λ o, p o && q o)
            | _, _ => None
            end).
    destruct (compile_where d c) as [p|] eqn:Hc.
    + destruct (compile_where d (WAnd l)) as [q|].
      * destruct IH as [Hall Hq]. split.
        -- constructor; [by rewrite Hc|done].
        -- intros o. simpl. rewrite Hc, Hq. done.
      * by apply Exists_cons_tl.
    + by apply Exists_cons_hd.
Qed.

(** *** getSingleOrder *)

(** getSingleOrder raises the not-found error of the client exactly when no
    order has the id; otherwise it returns the order found with that id,
    together with exactly the item rows that carry the id, each with the shop
    its shopId refers to; the world is left as it was. *)
Theorem getSingleOrder_found_or_not_found id w :
  (find_order id (db w) = None → getSingleOrder id w = (Throw PrismaNotFoundError, w))
  ∧ (∀ o, find_order id (db w) = Some o →
       ∃ r, getSingleOrder id w = (Ok r, w)
            ∧ row r = o ∧ Order.id o = id ∧ In o (orders (db w))
            ∧ customer r = None
            ∧ (∀ it, In it (map item (items r))
                     ↔ In it (orderItems (db w)) ∧ OrderItem.orderId it = id)
            ∧ (∀ ir, In ir (items r) → shop ir = shop_of (db w) (OrderItem.shopId (item ir)))).
Proof.
  split.
  - intros H. unfold getSingleOrder. run_M. rewrite H. reflexivity.
  - intros o H. unfold getSingleOrder. run_M. rewrite H.
    eexists. split; [reflexivity|]. simpl.
    pose proof H as Hfind. unfold find_order in Hfind.
    apply find_some in Hfind as [Hin Hid]. apply bool_decide_eq_true in Hid.
    split_and!; try done.
    + intros it. rewrite map_map. simpl. rewrite map_id.
      unfold items_of. rewrite filter_In, Hid.
      split; intros [? Hb]; (split; [done|]).
      * by apply bool_decide_eq_true in Hb.
      * by apply bool_decide_eq_true.
    + intros ir Hir. apply in_map_iff in Hir as (it & <- & _). reflexivity.
Qed.

(** *** What the listings leave alone *)

Lemma getAllOrder_run paginationData w :
  getAllOrder paginationData w =
    let pg := calculatePagination paginationData in
    match run_findMany (db w)
            {| fm_where := None;
               fm_include := {| include_shop := true; include_customer := true |};
               fm_skip := Pagination.skip pg;
               fm_take := Pagination.limit pg;
               fm_orderBy := orderBy_of paginationData |} with
    | Ok rows => (Ok (envelope pg (Z.of_nat (length (orders (db w)))) rows), w)
    | Throw e => (Throw e, w)
    end.
Proof.
  unfold getAllOrder. run_M.
  destruct (run_findMany _ _); [|reflexivity].
  unfold run_count. simpl. rewrite filter_all_length. reflexivity.
Qed.

(** No read operation writes: getSingleOrder, getAllOrder, getPendingOrder
    and the customer listing leave the whole world as it was, whatever they
    return, and the vendor listing changes nothing but the console, to which
    it only appends. *)
Theorem read_operations_do_not_write userInfo paginationData params id w :
  snd (getSingleOrder id w) = w
  ∧ snd (getAllOrder paginationData w) = w
  ∧ snd (getPendingOrder paginationData w) = w
  ∧ snd (getSingleCustomerAllOrder userInfo paginationData params w) = w
  ∧ db (snd (getSpecificShopOrder userInfo paginationData params w)) = db w
  ∧ paymentCalls (snd (getSpecificShopOrder userInfo paginationData params w))
    = paymentCalls w
  ∧ ∃ written,
      console (snd (getSpecificShopOrder userInfo paginationData params w))
      = (console w ++ written)%list.
Proof.
  split_and!.
  - unfold getSingleOrder. run_M. by destruct (find_order id (db w)).
  - rewrite getAllOrder_run. simpl. by destruct (run_findMany _ _).
  - rewrite getPendingOrder_run. simpl. by destruct (run_findMany _ _).
  - rewrite getSingleCustomerAllOrder_run. simpl. by destruct (run_findMany _ _).
  - unfold getSpecificShopOrder. run_M.
    destruct (List.find _ _); [|done]. simpl.
    destruct (run_findMany _ _); [|done]. simpl. by destruct (run_count _ _).
  - unfold getSpecificShopOrder. run_M.
    destruct (List.find _ _); [|done]. simpl.
    destruct (run_findMany _ _); [|done]. simpl. by destruct (run_count _ _).
  - unfold getSpecificShopOrder. run_M.
    destruct (List.find _ _); [|by exists []; rewrite app_nil_r]. simpl.
    destruct (run_findMany _ _); [|by eexists]. simpl.
    destruct (run_count _ _); simpl; rewrite <- app_assoc; by eexists.
Qed.

(** *** The vendor listing *)

(** When no vendor has the caller's email, the vendor listing raises the
    not-found error of the client before anything else happens: the world is
    as before, and nothing was written to the console. *)
Theorem getSpecificShopOrder_unknown_vendor userData paginationData params w :
  List.find (λ v, bool_decide (Vendor.email v = userEmail userData)) (vendors (db w)) = None →
  getSpecificShopOrder userData paginationData params w = (Throw PrismaNotFoundError, w).
Proof.
  intros H. unfold getSpecificShopOrder. run_M. rewrite H. reflexivity.
Qed.

(** *** updateOrder and the rest of the database *)

Lemma update_status_same_but_status id s l :
  Forall2 (λ o o', Order.with_status (Order.status o) o' = o) l (update_status id s l).
Proof.
  induction l as [|x l IH]; simpl; [constructor|].
  destruct (bool_decide (Order.id x = id)).
  - constructor; [by destruct x|]. apply Forall2_same_length_lookup_2; [done|].
    intros i a b Ha Hb. rewrite Ha in Hb. injection Hb as <-. by destruct a.
  - constructor; [by destruct x|exact IH].
Qed.

Lemma update_status_ids id s l :
  map Order.id (update_status id s l) = map Order.id l.
Proof.
  induction l as [|x l IH]; simpl; [done|].
  destruct (bool_decide (Order.id x = id)); simpl; [done|]. by rewrite IH.
Qed.

(** What updateOrder returns and leaves behind, in the three cases. *)
Lemma updateOrder_cases id w :
  (find_order id (db w) = None ∧ snd (updateOrder id w) = w)
  ∨ (∃ o, find_order id (db w) = Some o ∧ statusSequence (Order.status o) = None
          ∧ snd (updateOrder id w) = w)
  ∨ (∃ o next, find_order id (db w) = Some o
               ∧ statusSequence (Order.status o) = Some next
               ∧ snd (updateOrder id w)
                 = {| db := set_orders (update_status id next (orders (db w))) (db w);
                      paymentCalls := paymentCalls w; console := console w |}).
Proof.
  destruct (find_order id (db w)) as [o|] eqn:Hf.
  - destruct (statusSequence (Order.status o)) as [next|] eqn:Hs.
    + right; right. exists o, next. by rewrite (updateOrder_transition _ _ _ _ Hf Hs).
    + right; left. exists o. by rewrite (updateOrder_no_transition _ _ _ Hf Hs).
  - left. by rewrite (updateOrder_missing _ _ Hf).
Qed.

(** Whatever updateOrder returns, it touches nothing but the status of the
    order with the given id: the orders keep their number, their positions
    and every field other than status; an order with another id is found as
    before; the other tables, the payment requests and the console are as
    before. *)
Theorem updateOrder_touches_only_the_status id w :
  let w' := snd (updateOrder id w) in
  Forall2 (λ o o', Order.with_status (Order.status o) o' = o)
    (orders (db w)) (orders (db w'))
  ∧ (∀ id', id' ≠ id → find_order id' (db w') = find_order id' (db w))
  ∧ customers (db w') = customers (db w)
  ∧ vendors (db w') = vendors (db w)
  ∧ shops (db w') = shops (db w)
  ∧ orderItems (db w') = orderItems (db w)
  ∧ paymentCalls w' = paymentCalls w
  ∧ console w' = console w.
Proof.
  intros w'. subst w'.
  destruct (updateOrder_cases id w) as [[_ ->]|[(o & _ & _ & ->)|(o & next & _ & _ & ->)]].
  - split_and!; try done. apply Forall2_same_length_lookup_2; [done|].
    intros i a b Ha Hb. rewrite Ha in Hb. injection Hb as <-. by destruct a.
  - split_and!; try done. apply Forall2_same_length_lookup_2; [done|].
    intros i a b Ha Hb. rewrite Ha in Hb. injection Hb as <-. by destruct a.
  - simpl. split_and!; try done.
    + apply update_status_same_but_status.
    + intros id' Hne. unfold find_order. simpl. by apply find_order_update_other.
Qed.

Lemma with_status_same o : Order.with_status (Order.status o) o = o.
Proof. by destruct o. Qed.

Lemma run_updates_delivered_stays id n w o :
  find_order id (db w) = Some o → Order.status o = "DELIVERED" →
  find_order id (db (run_updates (replicate n id) w)) = Some o.
Proof.
  revert w. induction n as [|n IH]; intros w Hf Hs; simpl; [done|].
  apply IH; [|done].
  assert (statusSequence (Order.status o) = Some "DELIVERED") as Hn by (by rewrite Hs).
  rewrite (updateOrder_transition _ _ _ _ Hf Hn). simpl.
  unfold find_order in *. simpl.
  rewrite (find_order_update_same _ "DELIVERED" _ _ Hf).
  by rewrite <- Hs, with_status_same.
Qed.

(** Two calls are enough: for an order whose status is a member of the enum,
    after any two or more successive calls of updateOrder on its id the order
    found under that id has status DELIVERED and every other field as it
    was. *)
Theorem updateOrder_twice_delivers id w o n :
  find_order id (db w) = Some o →
  In (Order.status o) ORDER_STATUS →
  (2 ≤ n)%nat →
  find_order id (db (run_updates (replicate n id) w))
    = Some {| Order.id := Order.id o; Order.couponId := Order.couponId o;
              Order.subTotal := Order.subTotal o; Order.total := Order.total o;
              Order.discounts := Order.discounts o;
              Order.customerId := Order.customerId o;
              Order.transactionId := Order.transactionId o;
              Order.paymentStatus := Order.paymentStatus o;
              Order.status := "DELIVERED";
              Order.createdAt := Order.createdAt o |}.
Proof.
  intros Hf Hin Hn.
  change (find_order id (db (run_updates (replicate n id) w))
          = Some (Order.with_status "DELIVERED" o)).
  assert (Hstep : ∀ w o next,
            find_order id (db w) = Some o →
            statusSequence (Order.status o) = Some next →
            find_order id (db (snd (updateOrder id w)))
              = Some (Order.with_status next o)).
  { intros w0 o0 next H0 Hs. rewrite (updateOrder_transition _ _ _ _ H0 Hs). simpl.
    unfold find_order in *. simpl. by apply find_order_update_same. }
  destruct n as [|[|n]]; [lia|lia|]. simpl.
  simpl in Hin. destruct Hin as [E|[E|[E|[]]]].
  - pose proof (Hstep w o "ONGOING" Hf ltac:(by rewrite <- E)) as H1.
    pose proof (Hstep _ _ "DELIVERED" H1 eq_refl) as H2.
    by apply run_updates_delivered_stays.
  - pose proof (Hstep w o "DELIVERED" Hf ltac:(by rewrite <- E)) as H1.
    pose proof (Hstep _ _ "DELIVERED" H1 eq_refl) as H2.
    by apply run_updates_delivered_stays.
  - pose proof (Hstep w o "DELIVERED" Hf ltac:(by rewrite <- E)) as H1.
    pose proof (Hstep _ _ "DELIVERED" H1 eq_refl) as H2.
    by apply run_updates_delivered_stays.
Qed.

Lemma update_status_filter_length id s l o (f : Order.t → bool) :
  List.find (λ o, bool_decide (Order.id o = id)) l = Some o →
  (length (List.filter f (update_status id s l)) + (if f o then 1 else 0)
   = length (List.filter f l) + (if f (Order.with_status s o) then 1 else 0))%nat.
Proof.
  induction l as [|x l IH]; simpl; [done|].
  destruct (bool_decide (Order.id x = id)) eqn:E.
  - intros [= ->]. simpl. destruct (f o), (f (Order.with_status s o)); simpl; lia.
  - intros H. simpl. specialize (IH H). destruct (f x); simpl; lia.
Qed.

(** How a call of updateOrder moves the number of orders not yet delivered,
    which is the total getPendingOrder reports: it drops by one when the
    order found was ONGOING, and it stays the same in every other case (the
    order was PENDING or DELIVERED, or the call raised). *)
Theorem updateOrder_pending_count id w :
  pending_count (db w)
  = (pending_count (db (snd (updateOrder id w)))
     + match find_order id (db w) with
       | Some o => if bool_decide (Order.status o = "ONGOING") then 1 else 0
       | None => 0
       end)%nat.
Proof.
  destruct (updateOrder_cases id w) as [[Hf ->]|[(o & Hf & Hs & ->)|(o & next & Hf & Hs & ->)]];
    rewrite Hf.
  - lia.
  - case_bool_decide as E; [|lia]. rewrite E in Hs. discriminate.
  - unfold pending_count. simpl.
    pose proof (update_status_filter_length id next _ _ not_delivered Hf) as Hlen.
    assert ((Order.status o = "PENDING" ∧ next = "ONGOING")
            ∨ (Order.status o = "ONGOING" ∧ next = "DELIVERED")
            ∨ (Order.status o = "DELIVERED" ∧ next = "DELIVERED")) as Hc.
    { unfold statusSequence in Hs. repeat case_bool_decide; simplify_eq; auto. }
    assert (∀ s, not_delivered (Order.with_status s o)
                 = negb (bool_decide (s = "DELIVERED"))) as Hnew by done.
    assert (not_delivered o = negb (bool_decide (Order.status o = "DELIVERED")))
      as Hold by done.
    rewrite Hnew, Hold in Hlen.
    destruct Hc as [[E ->]|[[E ->]|[E ->]]]; rewrite E in Hlen |- *;
      repeat match type of Hlen with
             | context [bool_decide (?a = ?b)] =>
                 let v := eval vm_compute in (bool_decide (a = b)) in
                 change (bool_decide (a = b)) with v in Hlen
             end;
      repeat match goal with
             | |- context [bool_decide (?a = ?b)] =>
                 let v := eval vm_compute in (bool_decide (a = b)) in
                 change (bool_decide (a = b)) with v
             end;
      simpl in Hlen; cbv iota; lia.
Qed.

(** *** createOrderIntoDB and the rest of the world *)

Lemma find_app_None {A} (f : A → bool) l1 l2 :
  List.find f l1 = None → List.find f (l1 ++ l2) = List.find f l2.
Proof.
  induction l1 as [|x l1 IH]; simpl; [done|]. destruct (f x); [done|exact IH].
Qed.

(** The request that goes to the payment gateway for a stored order. *)
Lemma createOrderIntoDB_accepted orderInfo userData env w c :
  find_customer (userEmail userData) (db w) = Some c →
  List.find
    (λ item, includes (map Shop.shopId (List.filter Shop.isBlackListed (shops (db w))))
               (IOrderItem.shopId item))
    (IOrderRequest.items orderInfo) = None →
  find_order (newOrderId env) (db w) = None →
  let o :=
    order_row_of env
      (OrderCreateInput.mk
         (IOrderRequest.couponId orderInfo) (IOrderRequest.subTotal orderInfo)
         (IOrderRequest.total orderInfo) (IOrderRequest.discounts orderInfo)
         (Customer.customerId c) (generateTransactionId env) "PENDING"
         (IOrderRequest.items orderInfo)) in
  let its := map (item_row_of env) (IOrderRequest.items orderInfo) in
  let req :=
    {| orderData := Order.subTotal o; txn := Order.transactionId o;
       customerData := c; orderId := Order.id o |} in
  schema_accepts (db w) o its = true →
  createOrderIntoDB orderInfo userData env w
    = (match initiatePayment req with
       | Ok paymentInfo => Ok {| order := o; payLink := payment_url paymentInfo |}
       | Throw e => Throw e
       end,
       {| db := add_order o its (db w);
          paymentCalls := paymentCalls w ++ [req];
          console := console w |}).
Proof.
  intros Hc Hclean Hfresh o its req Hacc.
  rewrite (createOrderIntoDB_found _ _ _ _ _ Hc), Hclean.
  run_M. rewrite Hfresh.
  subst o its req. unfold order_row_of in *. simpl in *. rewrite Hacc. simpl.
  by destruct (initiatePayment _).
Qed.

(** Whatever createOrderIntoDB returns, one of two things has happened.
    Either it raised and the world is exactly as before: nothing stored, no
    payment request sent.  Or exactly one order row and one item row per line
    item, each carrying the id of that order, were added after the existing
    rows, and exactly one payment request was sent, carrying that order's id,
    subtotal and transaction id; customers, vendors, shops and the console
    are as before, and the result is that order with a payment link or the
    error of the payment call.  So there is never a payment request without a
    stored order, nor a stored order without a payment request. *)
Theorem createOrderIntoDB_all_or_nothing orderInfo userData env w :
  let r := createOrderIntoDB orderInfo userData env w in
  (snd r = w ∧ ∃ e, fst r = Throw e)
  ∨ (∃ o its req,
       customers (db (snd r)) = customers (db w)
       ∧ vendors (db (snd r)) = vendors (db w)
       ∧ shops (db (snd r)) = shops (db w)
       ∧ orders (db (snd r)) = (orders (db w) ++ [o])%list
       ∧ orderItems (db (snd r)) = (orderItems (db w) ++ its)%list
       ∧ paymentCalls (snd r) = (paymentCalls w ++ [req])%list
       ∧ console (snd r) = console w
       ∧ length its = length (IOrderRequest.items orderInfo)
       ∧ Forall (λ it, OrderItem.orderId it = Order.id o) its
       ∧ Order.paymentStatus o = "PENDING"
       ∧ orderId req = Order.id o
       ∧ orderData req = Order.subTotal o
       ∧ txn req = Order.transactionId o
       ∧ ((∃ link, fst r = Ok {| order := o; payLink := link |})
          ∨ ∃ e, fst r = Throw e)).
Proof.
  intros r. subst r.
  destruct (find_customer (userEmail userData) (db w)) as [c|] eqn:Hc.
  2: { left. unfold createOrderIntoDB. run_M. rewrite Hc. eauto. }
  destruct (List.find
              (λ item, includes
                         (map Shop.shopId (List.filter Shop.isBlackListed (shops (db w))))
                         (IOrderItem.shopId item))
              (IOrderRequest.items orderInfo)) as [bad|] eqn:Hfind.
  { left. rewrite (createOrderIntoDB_found _ _ _ _ _ Hc), Hfind. eauto. }
  destruct (find_order (newOrderId env) (db w)) as [old|] eqn:Hfresh.
  { left. rewrite (createOrderIntoDB_found _ _ _ _ _ Hc), Hfind.
    run_M. rewrite Hfresh. eauto. }
  destruct (schema_accepts (db w)
              (order_row_of env
                 (OrderCreateInput.mk
                    (IOrderRequest.couponId orderInfo) (IOrderRequest.subTotal orderInfo)
                    (IOrderRequest.total orderInfo) (IOrderRequest.discounts orderInfo)
                    (Customer.customerId c) (generateTransactionId env) "PENDING"
                    (IOrderRequest.items orderInfo)))
              (map (item_row_of env) (IOrderRequest.items orderInfo))) eqn:Hacc.
  - right. rewrite (createOrderIntoDB_accepted _ _ _ _ _ Hc Hfind Hfresh Hacc).
    eexists _, _, _. simpl. split_and!; try reflexivity.
    + by rewrite length_map.
    + apply Forall_forall. intros it Hit.
      apply list_elem_of_In, in_map_iff in Hit as (i & <- & _). reflexivity.
    + destruct (initiatePayment _); eauto.
  - left. rewrite (createOrderIntoDB_found _ _ _ _ _ Hc), Hfind.
    run_M. rewrite Hfresh.
    unfold order_row_of in Hacc |- *. simpl in Hacc |- *. rewrite Hacc. eauto.
Qed.

Lemma filter_item_rows env l :
  List.filter (λ it, bool_decide (OrderItem.orderId it = newOrderId env))
    (map (item_row_of env) l) = map (item_row_of env) l.
Proof.
  induction l as [|i l IH]; simpl; [done|].
  rewrite bool_decide_eq_true_2 by done. by rewrite IH.
Qed.

Lemma filter_none {A} (f : A → bool) l :
  (∀ x, In x l → f x = false) → List.filter f l = [].
Proof.
  induction l as [|x l IH]; simpl; [done|]. intros H.
  rewrite (H x) by (by left). apply IH. intros y Hy. apply H. by right.
Qed.

(** An order just created is read back whole: under the conditions of a
    successful insert, and when no item row carried the new id before,
    getSingleOrder on the new id, in the world createOrderIntoDB leaves,
    returns the stored row, which is the one createOrderIntoDB returned if it
    returned one, with exactly the line items of the request, each with the
    fields of the request and as often as the request has it (the order in
    which the items come back is not fixed by the query). *)
Theorem createOrderIntoDB_then_getSingleOrder orderInfo userData env w c :
  find_customer (userEmail userData) (db w) = Some c →
  (∀ item s, In item (IOrderRequest.items orderInfo) → In s (shops (db w)) →
             Shop.shopId s = IOrderItem.shopId item → Shop.isBlackListed s = false) →
  find_order (newOrderId env) (db w) = None →
  (∀ it, In it (orderItems (db w)) → OrderItem.orderId it ≠ newOrderId env) →
  schema_accepts (db w)
    (order_row_of env
       (OrderCreateInput.mk
          (IOrderRequest.couponId orderInfo) (IOrderRequest.subTotal orderInfo)
          (IOrderRequest.total orderInfo) (IOrderRequest.discounts orderInfo)
          (Customer.customerId c) (generateTransactionId env) "PENDING"
          (IOrderRequest.items orderInfo)))
    (map (item_row_of env) (IOrderRequest.items orderInfo)) = true →
  let r := createOrderIntoDB orderInfo userData env w in
  ∃ found,
    getSingleOrder (newOrderId env) (snd r) = (Ok found, snd r)
    ∧ (∀ created, fst r = Ok created → row found = order created)
    ∧ Order.id (row found) = newOrderId env
    ∧ Order.customerId (row found) = Customer.customerId c
    ∧ Order.subTotal (row found) = IOrderRequest.subTotal orderInfo
    ∧ map (λ ir, let it := item ir in
                 IOrderItem.mk (OrderItem.shopId it) (OrderItem.productId it)
                   (OrderItem.size it) (OrderItem.quantity it) (OrderItem.price it)
                   (OrderItem.discount it)) (items found)
      ≡ₚ IOrderRequest.items orderInfo.
Proof.
  intros Hc Hclean Hfresh Hitems Hacc r. subst r.
  assert (List.find
            (λ item, includes
                       (map Shop.shopId (List.filter Shop.isBlackListed (shops (db w))))
                       (IOrderItem.shopId item))
            (IOrderRequest.items orderInfo) = None) as Hfind.
  { destruct (List.find _ _) as [bad|] eqn:Hfind; [|done].
    apply find_some in Hfind as [Hin Hinc].
    apply includes_blacklisted in Hinc as (s' & Hs' & Hid' & Hb').
    rewrite (Hclean _ _ Hin Hs' Hid') in Hb'. discriminate. }
  rewrite (createOrderIntoDB_accepted _ _ _ _ _ Hc Hfind Hfresh Hacc).
  set (o := order_row_of env _).
  assert (find_order (newOrderId env) (add_order o (map (item_row_of env)
                                                      (IOrderRequest.items orderInfo)) (db w))
          = Some o) as Hfound.
  { unfold find_order in *. simpl. rewrite (find_app_None _ _ _ Hfresh). simpl.
    by rewrite bool_decide_eq_true_2. }
  unfold getSingleOrder. run_M. rewrite Hfound.
  eexists. split; [reflexivity|]. simpl. split_and!; try reflexivity.
  - intros created. destruct (initiatePayment _); intros [= <-]; reflexivity.
  - unfold items_of. simpl. rewrite List.filter_app, filter_item_rows.
    rewrite filter_none.
    2: { intros it Hit. apply bool_decide_eq_false_2. by apply Hitems. }
    simpl. rewrite !map_map.
    match goal with |- ?a ≡ₚ ?b => assert (a = b) as ->; [|done] end.
    generalize (IOrderRequest.items orderInfo). intros l.
    induction l as [|i l IH]; simpl; [done|].
    f_equal; [by destruct i|exact IH].
Qed.

(** *** Pages *)

Lemma filter_all {A} (l : list A) : List.filter (λ _, true) l = l.
Proof. induction l as [|x l IH]; simpl; [done|]. by rewrite IH. Qed.

(** What an accepted findMany has done. *)
Lemma run_findMany_Ok d args rows :
  run_findMany d args = Ok rows →
  ∃ p sorted,
    compile_where_opt d (fm_where args) = Some p
    ∧ order_rows (fm_orderBy args) (List.filter p (orders d)) = Some sorted
    ∧ 0 ≤ fm_skip args
    ∧ rows = map (with_relations d (fm_include args))
               (slice (fm_skip args) (fm_take args) sorted).
Proof.
  unfold run_findMany.
  destruct (compile_where_opt _ _) as [p|]; [|done].
  destruct (order_rows _ _) as [sorted|] eqn:Hs; [|done].
  destruct (Z.ltb _ _) eqn:Hskip; [done|]. intros [= <-].
  exists p, sorted. split_and!; try done. by apply Z.ltb_ge.
Qed.

Lemma slice_length skip take l :
  (length (slice skip take l) ≤ Z.to_nat (Z.abs take))%nat
  ∧ (length (slice skip take l) ≤ length l)%nat.
Proof.
  unfold slice. destruct (Z.leb 0 take) eqn:E.
  - apply Z.leb_le in E. rewrite length_take, length_drop. lia.
  - apply Z.leb_gt in E.
    rewrite length_rev, length_take, length_drop, length_rev. lia.
Qed.

Lemma slice_app skip take1 take2 l :
  0 ≤ skip → 0 ≤ take1 → 0 ≤ take2 →
  slice skip (take1 + take2) l
    = (slice skip take1 l ++ slice (skip + take1) take2 l)%list.
Proof.
  intros Hs H1 H2. unfold slice.
  rewrite !(proj2 (Z.leb_le 0 _)) by lia.
  rewrite Z2Nat.inj_add by lia. rewrite <- take_take_drop, drop_drop.
  by rewrite Z2Nat.inj_add by lia.
Qed.

(** getAllOrder, when the ordering asked for is accepted and leaves no two
    orders tied, and skip is not negative, returns the envelope whose total
    is the number of all orders and whose data is the page of all orders in
    that ordering: the first limit orders after the first skip ones (the
    last -limit ones before the last skip ones when limit is negative), each
    with its items and its customer.  A page that starts at 0 and is at
    least as long as the table holds every order, and an empty table gives
    an empty page.  Without a sort the ordering is the one and only
    arrangement of the orders with createdAt descending. *)
Theorem getAllOrder_returns_all paginationData w sorted :
  let pg := calculatePagination paginationData in
  let n := Z.of_nat (length (orders (db w))) in
  order_rows (orderBy_of paginationData) (orders (db w)) = Some sorted →
  distinct_sort_keys (orderBy_of paginationData) (orders (db w)) →
  0 ≤ Pagination.skip pg →
  ∃ rows,
    getAllOrder paginationData w
      = (Ok {| meta := Meta.mk (Pagination.page pg) (Pagination.limit pg) n
                         (math_ceil_div n (Pagination.limit pg));
               data := rows |}, w)
    ∧ (0 ≤ Pagination.limit pg →
         map row rows
         = take (Z.to_nat (Pagination.limit pg))
             (drop (Z.to_nat (Pagination.skip pg)) sorted))
    ∧ (Pagination.limit pg < 0 →
         map row rows
         = rev (take (Z.to_nat (- Pagination.limit pg))
                  (drop (Z.to_nat (Pagination.skip pg)) (rev sorted))))
    ∧ sorted ≡ₚ orders (db w)
    ∧ (IPaginationOptions.sort paginationData = None →
         StronglySorted newer_first sorted
         ∧ ∀ l, l ≡ₚ orders (db w) → StronglySorted newer_first l → l = sorted)
    ∧ (Pagination.skip pg = 0 → n ≤ Pagination.limit pg →
         map row rows ≡ₚ orders (db w))
    ∧ (orders (db w) = [] → rows = [])
    ∧ (∀ r, In r rows →
            customer r = customer_of (db w) (Order.customerId (row r))
            ∧ map item (items r) ≡ₚ items_of (db w) (row r)).
Proof.
  intros pg n Hsort Hdistinct Hskip.
  assert (Hperm : sorted ≡ₚ orders (db w)) by (by eapply order_rows_Permutation).
  exists (map (with_relations (db w) {| include_shop := true; include_customer := true |})
            (slice (Pagination.skip pg) (Pagination.limit pg) sorted)).
  split_and!.
  - rewrite getAllOrder_run. fold pg. unfold run_findMany. simpl.
    rewrite filter_all, Hsort, (proj2 (Z.ltb_ge _ _) Hskip). reflexivity.
  - intros Hlimit. rewrite map_row_with_relations. unfold slice.
    by rewrite (proj2 (Z.leb_le 0 _) Hlimit).
  - intros Hlimit. rewrite map_row_with_relations. unfold slice.
    by rewrite (proj2 (Z.leb_gt 0 _) Hlimit).
  - exact Hperm.
  - intros Hnone.
    assert (orderBy_of paginationData
            = {| ob_field := "createdAt"; ob_direction := Some "desc" |}) as Hob
      by (unfold orderBy_of; by rewrite Hnone).
    rewrite Hob in Hsort, Hdistinct.
    pose proof (order_rows_default_sorted _ _ Hsort) as Hsorted.
    split; [exact Hsorted|].
    intros l Hl Hlsorted.
    destruct Hdistinct as (dir & le & _ & Hle & Hkeys).
    unfold order_le in Hle. simpl in Hle. injection Hle as <-.
    apply (StronglySorted_unique_strong newer_first); try done.
    + intros a b Ha Hb Hab Hba. apply Hkeys.
      * apply list_elem_of_In. by rewrite <- Hl.
      * apply list_elem_of_In. by rewrite <- Hperm.
      * by apply bool_decide_eq_true.
      * by apply bool_decide_eq_true.
    + by rewrite Hl, Hperm.
  - intros H0 Hle. rewrite map_row_with_relations, H0.
    rewrite slice_all; [done|]. rewrite Hperm. exact Hle.
  - intros Hnil. rewrite Hnil in Hperm. apply Permutation_nil_r in Hperm. subst sorted.
    unfold slice. destruct (Z.leb _ _); simpl; by rewrite drop_nil, take_nil.
  - intros r Hr. apply in_map_iff in Hr as (o & <- & _). simpl.
    split; [done|]. rewrite map_map. simpl. by rewrite map_id.
Qed.

(** A page is never longer than asked for nor longer than the total
    reported with it: for each of the four listings, when it returns an
    envelope, the data has at most |limit| entries and at most total entries,
    meta repeats the page and the limit of the pagination, and totalPage is
    the ceiling of the total reported over the limit (the integer q with
    q - 1 < total / limit ≤ q; NaN or Infinity at limit 0). *)
Theorem listing_page_bounds userInfo paginationData params w env :
  fst (getAllOrder paginationData w) = Ok env
  ∨ fst (getPendingOrder paginationData w) = Ok env
  ∨ fst (getSingleCustomerAllOrder userInfo paginationData params w) = Ok env
  ∨ fst (getSpecificShopOrder userInfo paginationData params w) = Ok env →
  let pg := calculatePagination paginationData in
  Z.of_nat (length (data env)) ≤ Z.abs (Pagination.limit pg)
  ∧ Z.of_nat (length (data env)) ≤ Meta.total (meta env)
  ∧ Meta.page (meta env) = Pagination.page pg
  ∧ Meta.limit (meta env) = Pagination.limit pg
  ∧ Meta.totalPage (meta env) = math_ceil_div (Meta.total (meta env)) (Pagination.limit pg)
  ∧ (0 < Pagination.limit pg →
       ∃ q, Meta.totalPage (meta env) = Finite q
            ∧ (q - 1) * Pagination.limit pg < Meta.total (meta env)
              ≤ q * Pagination.limit pg)
  ∧ (Pagination.limit pg = 0 →
       Meta.totalPage (meta env)
       = if Z.eqb (Meta.total (meta env)) 0 then NaN else PosInfinity)
  ∧ (Pagination.limit pg < 0 →
       ∃ q, q * Pagination.limit pg ≤ Meta.total (meta env)
              < (q - 1) * Pagination.limit pg
            ∧ Meta.totalPage (meta env) = if Z.eqb q 0 then NegZero else Finite q).
Proof.
  intros H pg.
  cut (Z.of_nat (length (data env)) ≤ Z.abs (Pagination.limit pg)
       ∧ Z.of_nat (length (data env)) ≤ Meta.total (meta env)
       ∧ Meta.page (meta env) = Pagination.page pg
       ∧ Meta.limit (meta env) = Pagination.limit pg
       ∧ Meta.totalPage (meta env)
         = math_ceil_div (Meta.total (meta env)) (Pagination.limit pg)).
  { intros (H1 & H2 & H3 & H4 & H5).
    destruct (math_ceil_div_ceiling (Meta.total (meta env)) (Pagination.limit pg))
      as (Hpos & Hzero & Hneg); [lia|].
    rewrite <- H5 in Hpos, Hzero, Hneg. done. }
  assert (Hpage : ∀ d args rows p,
            run_findMany d args = Ok rows →
            compile_where_opt d (fm_where args) = Some p →
            Z.of_nat (length rows) ≤ Z.abs (fm_take args)
            ∧ (length rows ≤ length (List.filter p (orders d)))%nat).
  { intros d args rows p Hrun Hp.
    apply run_findMany_Ok in Hrun as (p' & sorted & Hp' & Hsorted & _ & ->).
    rewrite Hp in Hp'. injection Hp' as <-.
    apply order_rows_Permutation, Permutation_length in Hsorted.
    rewrite length_map.
    destruct (slice_length (fm_skip args) (fm_take args) sorted). lia. }
  destruct H as [H|[H|[H|H]]].
  - rewrite getAllOrder_run in H. fold pg in H. simpl in H.
    destruct (run_findMany _ _) as [rows|] eqn:Hrun; [|done].
    injection H as <-. simpl.
    destruct (Hpage _ _ _ (λ _, true) Hrun eq_refl) as [H1 H2].
    rewrite filter_all in H2. simpl in H1. split_and!; try done; lia.
  - rewrite getPendingOrder_run in H. fold pg in H. simpl in H.
    destruct (run_findMany _ _) as [rows|] eqn:Hrun; [|done].
    injection H as <-. simpl.
    destruct (Hpage _ _ _ not_delivered Hrun eq_refl) as [H1 H2].
    simpl in H1. split_and!; try done; lia.
  - rewrite getSingleCustomerAllOrder_run in H. fold pg in H. simpl in H.
    destruct (run_findMany _ _) as [rows|] eqn:Hrun; [|done].
    injection H as <-. simpl.
    pose proof Hrun as Hrun'.
    apply run_findMany_Ok in Hrun' as (p & _ & Hp & _).
    destruct (Hpage _ _ _ p Hrun Hp) as [H1 H2]. simpl in H1.
    pose proof (List.filter_length_le p (orders (db w))).
    split_and!; try done; lia.
  - destruct (List.find (λ v, bool_decide (Vendor.email v = userEmail userInfo))
                (vendors (db w))) as [vendor|] eqn:Hv.
    2: { unfold getSpecificShopOrder in H. revert H. run_M. by rewrite Hv. }
    rewrite (getSpecificShopOrder_run _ _ _ _ _ Hv) in H. fold pg in H. simpl in H.
    destruct (run_findMany _ _) as [rows|] eqn:Hrun; [|done].
    pose proof Hrun as Hrun'.
    apply run_findMany_Ok in Hrun' as (p & _ & Hp & _).
    destruct (Hpage _ _ _ p Hrun Hp) as [H1 H2]. simpl in H1.
    unfold run_count in H. simpl in Hp. simpl in H. rewrite Hp in H. simpl in H.
    injection H as <-. simpl. split_and!; try done; lia.
Qed.

(** Consecutive pages of getAllOrder fit together: with the same sort, an
    ordering that leaves no two orders tied and an unchanged database, a
    page of limit a at skip s followed by a page of limit b at skip s + a is
    the page of limit a + b at skip s. *)
Theorem getAllOrder_pages_concatenate pd1 pd2 pd12 w env1 env2 env12 :
  IPaginationOptions.sort pd2 = IPaginationOptions.sort pd1 →
  IPaginationOptions.sort pd12 = IPaginationOptions.sort pd1 →
  distinct_sort_keys (orderBy_of pd1) (orders (db w)) →
  0 ≤ Pagination.limit (calculatePagination pd1) →
  0 ≤ Pagination.limit (calculatePagination pd2) →
  Pagination.skip (calculatePagination pd2)
    = Pagination.skip (calculatePagination pd1) + Pagination.limit (calculatePagination pd1) →
  Pagination.skip (calculatePagination pd12) = Pagination.skip (calculatePagination pd1) →
  Pagination.limit (calculatePagination pd12)
    = Pagination.limit (calculatePagination pd1) + Pagination.limit (calculatePagination pd2) →
  fst (getAllOrder pd1 w) = Ok env1 →
  fst (getAllOrder pd2 w) = Ok env2 →
  fst (getAllOrder pd12 w) = Ok env12 →
  data env12 = (data env1 ++ data env2)%list.
Proof.
  intros Hs2 Hs12 _ Ha Hb Hskip2 Hskip12 Hlim12 H1 H2 H12.
  assert (orderBy_of pd2 = orderBy_of pd1) as Hob2 by (unfold orderBy_of; by rewrite Hs2).
  assert (orderBy_of pd12 = orderBy_of pd1) as Hob12 by (unfold orderBy_of; by rewrite Hs12).
  rewrite getAllOrder_run in H1, H2, H12. simpl in H1, H2, H12.
  rewrite Hob2, Hskip2 in H2. rewrite Hob12, Hskip12, Hlim12 in H12.
  destruct (run_findMany _ _) as [rows1|] eqn:R1 in H1; [|done].
  destruct (run_findMany _ _) as [rows2|] eqn:R2 in H2; [|done].
  destruct (run_findMany _ _) as [rows12|] eqn:R12 in H12; [|done].
  injection H1 as <-. injection H2 as <-. injection H12 as <-. simpl.
  apply run_findMany_Ok in R1 as (p1 & s1 & Hp1 & Hsort1 & Hsk & ->).
  apply run_findMany_Ok in R2 as (p2 & s2 & Hp2 & Hsort2 & _ & ->).
  apply run_findMany_Ok in R12 as (p12 & s12 & Hp12 & Hsort12 & _ & ->).
  simpl in *. injection Hp1 as <-. injection Hp2 as <-. injection Hp12 as <-.
  rewrite Hsort1 in Hsort2, Hsort12. injection Hsort2 as <-. injection Hsort12 as <-.
  rewrite slice_app by done. by rewrite map_app.
Qed.

(** *** Who sees which orders *)

Lemma compile_where_and_In d l p o c :
  compile_where d (WAnd l) = Some p → p o = true → In c l →
  ∃ q, compile_where d c = Some q ∧ q o = true.
Proof.
  intros Hp Ho Hc. pose proof (compile_where_and d l) as H. rewrite Hp in H.
  destruct H as [Hall Hforall]. rewrite Hforall in Ho.
  rewrite forallb_forall in Ho. specialize (Ho c Hc).
  destruct (compile_where d c) as [q|]; [eauto|discriminate].
Qed.

(** The rows a listing returns are rows of the table that pass the test of
    its where-condition. *)
Lemma run_findMany_rows d args rows p r :
  run_findMany d args = Ok rows →
  compile_where_opt d (fm_where args) = Some p →
  In r rows → In (row r) (orders d) ∧ p (row r) = true.
Proof.
  intros Hrun Hp Hr.
  apply run_findMany_Ok in Hrun as (p' & sorted & Hp' & Hsorted & _ & ->).
  rewrite Hp in Hp'. injection Hp' as <-.
  apply (in_map row) in Hr. rewrite map_row_with_relations in Hr.
  apply slice_In in Hr. apply order_rows_Permutation in Hsorted.
  apply list_elem_of_In in Hr. rewrite Hsorted in Hr.
  apply list_elem_of_In in Hr. by apply filter_In in Hr.
Qed.

(** A known customer sees only their own orders: when the caller's email
    belongs to a customer and the customer listing returns an envelope, every
    order in its data is an order of the table whose customerId is that
    customer's id, whatever the query parameters are. *)
Theorem customer_listing_only_own_orders userInfo paginationData params w c env :
  find_customer (userEmail userInfo) (db w) = Some c →
  fst (getSingleCustomerAllOrder userInfo paginationData params w) = Ok env →
  ∀ r, In r (data env) →
       In (row r) (orders (db w))
       ∧ Order.customerId (row r) = Customer.customerId c.
Proof.
  intros Hc H r Hr.
  rewrite getSingleCustomerAllOrder_run, Hc in H. simpl in H.
  destruct (run_findMany _ _) as [rows|] eqn:Hrun; [|done].
  injection H as <-. simpl in Hr.
  pose proof Hrun as Hrun'.
  apply run_findMany_Ok in Hrun' as (p & _ & Hp & _).
  destruct (run_findMany_rows _ _ _ _ _ Hrun Hp Hr) as [Hin Hpr].
  split; [done|]. simpl in Hp.
  destruct (compile_where_and_In _ _ _ _ (WAnd [WCustomerId (Some (Customer.customerId c))])
              Hp Hpr) as (q & Hq & Hqr).
  { unfold customer_where. apply in_app_iff. right. by left. }
  destruct (compile_where_and_In _ _ _ _ (WCustomerId (Some (Customer.customerId c)))
              Hq Hqr) as (q' & Hq' & Hqr'); [by left|].
  simpl in Hq'. injection Hq' as <-. by apply bool_decide_eq_true in Hqr'.
Qed.

(** A vendor sees only orders of their own shops, and the total matches:
    when the caller's email belongs to a vendor and the vendor listing
    returns an envelope, every order in its data has an item row whose shop
    belongs to that vendor, and the total is the count of the orders under
    the very where-condition the data was fetched with, so that a page that
    starts at 0 and is at least as long as total holds total orders. *)
Theorem vendor_listing_only_own_orders userData paginationData params w vendor env :
  List.find (λ v, bool_decide (Vendor.email v = userEmail userData)) (vendors (db w))
    = Some vendor →
  fst (getSpecificShopOrder userData paginationData params w) = Ok env →
  let pg := calculatePagination paginationData in
  (∀ r, In r (data env) →
        In (row r) (orders (db w))
        ∧ ∃ it s, In it (orderItems (db w))
                  ∧ OrderItem.orderId it = Order.id (row r)
                  ∧ shop_of (db w) (OrderItem.shopId it) = Some s
                  ∧ Shop.vendorId s = Vendor.vendorId vendor)
  ∧ run_count (db w) (Some (WAnd (vendor_where (Vendor.vendorId vendor) params)))
    = Ok (Meta.total (meta env))
  ∧ (Pagination.skip pg = 0 → Meta.total (meta env) ≤ Pagination.limit pg →
       Z.of_nat (length (data env)) = Meta.total (meta env)).
Proof.
  intros Hv H pg.
  rewrite (getSpecificShopOrder_run _ _ _ _ _ Hv) in H. fold pg in H. simpl in H.
  destruct (run_findMany _ _) as [rows|] eqn:Hrun; [|done].
  pose proof Hrun as Hrun'.
  apply run_findMany_Ok in Hrun' as (p & sorted & Hp & Hsorted & Hskip & Hrows).
  simpl in Hp, Hsorted, Hskip, Hrows.
  unfold run_count in H |- *. simpl in H |- *. rewrite Hp in H |- *. simpl in H.
  injection H as <-. simpl. split_and!.
  - intros r Hr.
    destruct (run_findMany_rows _ _ _ _ _ Hrun Hp Hr) as [Hin Hpr].
    split; [done|].
    destruct (compile_where_and_In _ _ _ _ (WAnd [WItemsSomeShopVendor (Vendor.vendorId vendor)])
                Hp Hpr) as (q & Hq & Hqr).
    { unfold vendor_where. apply in_app_iff. right. by left. }
    destruct (compile_where_and_In _ _ _ _ (WItemsSomeShopVendor (Vendor.vendorId vendor))
                Hq Hqr) as (q' & Hq' & Hqr'); [by left|].
    simpl in Hq'. injection Hq' as <-.
    apply existsb_exists in Hqr' as (it & Hit & Hshop).
    unfold items_of in Hit. apply filter_In in Hit as [Hit Hid].
    apply bool_decide_eq_true in Hid.
    unfold item_shop_vendor_is in Hshop.
    destruct (shop_of (db w) (OrderItem.shopId it)) as [s|] eqn:Hs; [|done].
    apply bool_decide_eq_true in Hshop. eauto 10.
  - reflexivity.
  - intros H0 Hle. rewrite Hrows, length_map, H0.
    apply order_rows_Permutation in Hsorted. rewrite slice_all.
    + by rewrite Hsorted.
    + by rewrite Hsorted.
Qed.

Lemma filter_conjuncts_nil (filterData : gmap string JSValue) :
  (∀ k v, filterData !! k = Some v → truthy v = false) →
  filter_conjuncts filterData = [].
Proof.
  intros H. destruct (filter_conjuncts filterData) as [|c l] eqn:E; [done|].
  assert (In c (filter_conjuncts filterData)) as Hin by (rewrite E; by left).
  destruct (filter_conjuncts_only_equalities _ _ Hin) as (k & v & ->).
  apply filter_conjuncts_In in Hin as [Hk Ht]. rewrite (H _ _ Hk) in Ht. discriminate.
Qed.

(** A caller who is no customer sees the orders of everyone: when no
    customer has the caller's email and no query parameter other than
    searchTerm is truthy, the customer listing returns the page of all orders
    of the table, and a page that starts at 0 and is at least as long as the
    table holds every order of every customer. *)
Theorem customer_listing_unknown_customer_sees_all
    userInfo paginationData params w sorted :
  find_customer (userEmail userInfo) (db w) = None →
  (∀ k v, params !! k = Some v → k = "searchTerm" ∨ truthy v = false) →
  let pg := calculatePagination paginationData in
  let n := Z.of_nat (length (orders (db w))) in
  order_rows (orderBy_of paginationData) (orders (db w)) = Some sorted →
  0 ≤ Pagination.skip pg →
  ∃ rows,
    getSingleCustomerAllOrder userInfo paginationData params w
      = (Ok {| meta := Meta.mk (Pagination.page pg) (Pagination.limit pg) n
                         (math_ceil_div n (Pagination.limit pg));
               data := rows |}, w)
    ∧ map row rows = slice (Pagination.skip pg) (Pagination.limit pg) sorted
    ∧ sorted ≡ₚ orders (db w)
    ∧ (Pagination.skip pg = 0 → n ≤ Pagination.limit pg →
         map row rows ≡ₚ orders (db w)).
Proof.
  intros Hc Hfalsy pg n Hsort Hskip.
  assert (Hperm : sorted ≡ₚ orders (db w)) by (by eapply order_rows_Permutation).
  assert (filter_conjuncts (rest_without_searchTerm params) = []) as Hnil.
  { apply filter_conjuncts_nil. intros k v Hk.
    apply rest_without_searchTerm_lookup in Hk as [Hne Hk].
    by destruct (Hfalsy _ _ Hk). }
  assert (∃ p, compile_where (db w) (WAnd (customer_where None params)) = Some p
               ∧ ∀ o, p o = true) as (p & Hp & Hall).
  { unfold customer_where, filter_condition. rewrite Hnil.
    destruct (Nat.ltb _ _); simpl; eexists; (split; [reflexivity|done]). }
  assert (List.filter p (orders (db w)) = orders (db w)) as Hfilter.
  { rewrite <- (filter_all (orders (db w))) at 2. by apply filter_ext. }
  exists (map (with_relations (db w) {| include_shop := false; include_customer := false |})
            (slice (Pagination.skip pg) (Pagination.limit pg) sorted)).
  split_and!.
  - rewrite getSingleCustomerAllOrder_run, Hc. fold pg. unfold run_findMany.
    cbn [fm_where fm_include fm_skip fm_take fm_orderBy compile_where_opt fmap option_fmap option_map].
    rewrite Hp, Hfilter, Hsort, (proj2 (Z.ltb_ge _ _) Hskip). reflexivity.
  - apply map_row_with_relations.
  - exact Hperm.
  - intros H0 Hle. rewrite map_row_with_relations, H0.
    rewrite slice_all; [done|]. rewrite Hperm. exact Hle.
Qed.

(** *** Parameters that do not count *)

Lemma agree_refl a : agree a a.
Proof. by destruct a. Qed.

Lemma agree_sym a b : agree a b → agree b a.
Proof. destruct a, b; simpl; try done; intros H o; by rewrite H. Qed.

Lemma agree_trans a b c : agree a b → agree b c → agree a c.
Proof.
  destruct a, b, c; simpl; try done; intros H1 H2 o; by rewrite H1, H2.
Qed.

Lemma compile_where_and_cons d c l :
  compile_where d (WAnd (c :: l))
  = match compile_where d c, compile_where d (WAnd l) with
    | Some p, Some q => Some (λ o, p o && q o)
    | _, _ => None
    end.
Proof. reflexivity. Qed.

(** An AND block nested in front of a list of conditions selects what the
    list with the members of the block spliced in selects. *)
Lemma compile_where_and_flatten d l1 l2 :
  agree (compile_where d (WAnd (WAnd l1 :: l2))) (compile_where d (WAnd (l1 ++ l2))).
Proof.
  rewrite compile_where_and_cons.
  induction l1 as [|c l1 IH].
  - simpl app. change (compile_where d (WAnd [])) with (Some (λ _ : Order.t, true)).
    destruct (compile_where d (WAnd l2)); simpl; done.
  - simpl app. rewrite !compile_where_and_cons.
    destruct (compile_where d c) as [pc|]; [|done].
    destruct (compile_where d (WAnd l1)) as [p1|],
             (compile_where d (WAnd l2)) as [p2|],
             (compile_where d (WAnd (l1 ++ l2))) as [p12|]; simpl in *; try done.
    intros o. by rewrite <- IH, andb_assoc.
Qed.

(** The order of the members of an AND block does not matter. *)
Lemma compile_where_and_Permutation d l l' :
  l ≡ₚ l' → agree (compile_where d (WAnd l)) (compile_where d (WAnd l')).
Proof.
  intros Hperm.
  pose proof (compile_where_and d l) as H. pose proof (compile_where_and d l') as H'.
  destruct (compile_where d (WAnd l)) as [p|], (compile_where d (WAnd l')) as [q|];
    simpl; try done.
  - destruct H as [_ Hp], H' as [_ Hq]. intros o. rewrite Hp, Hq.
    apply eq_true_iff_eq. rewrite !forallb_forall.
    split; intros Hall c Hc; apply Hall; apply list_elem_of_In;
      [rewrite Hperm|rewrite <- Hperm]; by apply list_elem_of_In.
  - destruct H as [Hall _]. apply Exists_exists in H' as (c & Hc & Hnone).
    rewrite <- Hperm in Hc. rewrite Forall_forall in Hall.
    destruct (Hall c Hc) as [x Hx]. congruence.
  - destruct H' as [Hall _]. apply Exists_exists in H as (c & Hc & Hnone).
    rewrite Hperm in Hc. rewrite Forall_forall in Hall.
    destruct (Hall c Hc) as [x Hx]. congruence.
Qed.

Lemma filter_condition_flatten d (filterData : gmap string JSValue) rest :
  agree (compile_where d (WAnd (filter_condition filterData ++ rest)))
        (compile_where d (WAnd (filter_conjuncts filterData ++ rest))).
Proof.
  unfold filter_condition. destruct (Nat.ltb _ _) eqn:E.
  - apply compile_where_and_flatten.
  - apply Nat.ltb_ge in E. unfold filter_conjuncts.
    destruct (object_keys filterData); [apply agree_refl|simpl in E; lia].
Qed.

Lemma NoDup_filter_conjuncts (filterData : gmap string JSValue) :
  NoDup (filter_conjuncts filterData).
Proof.
  unfold filter_conjuncts.
  assert (NoDup (List.filter (λ field, truthy (get_property filterData field))
                   (object_keys filterData))) as Hnd.
  { apply NoDup_ListNoDup, List.NoDup_filter, NoDup_ListNoDup.
    unfold object_keys. apply NoDup_fst_map_to_list. }
  induction Hnd as [|x l Hx Hnd IH]; simpl; constructor; [|done].
  rewrite list_elem_of_In, in_map_iff. intros (y & [= -> _] & Hy).
  by apply list_elem_of_In in Hy.
Qed.

Lemma falsy_conjuncts_Permutation (params : gmap string JSValue) k v :
  truthy v = false →
  filter_conjuncts (rest_without_searchTerm (<[k:=v]> params))
  ≡ₚ filter_conjuncts (rest_without_searchTerm (delete k params)).
Proof.
  intros Hv. apply NoDup_Permutation; try apply NoDup_filter_conjuncts.
  intros c. rewrite !list_elem_of_In. split; intros Hc.
  - destruct (filter_conjuncts_only_equalities _ _ Hc) as (k' & v' & ->).
    apply filter_conjuncts_In in Hc as [Hk Ht]. apply filter_conjuncts_In.
    split; [|done].
    apply rest_without_searchTerm_lookup in Hk as [Hne Hk].
    apply rest_without_searchTerm_lookup. split; [done|].
    destruct (decide (k = k')) as [->|Hkk].
    + rewrite lookup_insert_eq in Hk. congruence.
    + rewrite lookup_insert_ne in Hk by done. by rewrite lookup_delete_ne.
  - destruct (filter_conjuncts_only_equalities _ _ Hc) as (k' & v' & ->).
    apply filter_conjuncts_In in Hc as [Hk Ht]. apply filter_conjuncts_In.
    split; [|done].
    apply rest_without_searchTerm_lookup in Hk as [Hne Hk].
    apply rest_without_searchTerm_lookup. split; [done|].
    apply lookup_delete_Some in Hk as [Hkk Hk]. by rewrite lookup_insert_ne.
Qed.

(** Conditions that select the same rows give the same page and the same
    count. *)
Lemma run_findMany_same_selection d w1 w2 inc skip take ob :
  same_selection d w1 w2 →
  run_findMany d {| fm_where := w1; fm_include := inc; fm_skip := skip;
                    fm_take := take; fm_orderBy := ob |}
  = run_findMany d {| fm_where := w2; fm_include := inc; fm_skip := skip;
                      fm_take := take; fm_orderBy := ob |}
  ∧ run_count d w1 = run_count d w2.
Proof.
  unfold same_selection, run_findMany, run_count. simpl.
  destruct (compile_where_opt d w1) as [p|], (compile_where_opt d w2) as [q|];
    simpl; try done.
  intros H. by rewrite (filter_ext p q H).
Qed.

Lemma falsy_parameter_same_selection d (params : gmap string JSValue) k v own :
  truthy v = false →
  same_selection d
    (Some (WAnd (filter_condition (rest_without_searchTerm (<[k:=v]> params)) ++ own)))
    (Some (WAnd (filter_condition (rest_without_searchTerm (delete k params)) ++ own))).
Proof.
  intros Hv. unfold same_selection, compile_where_opt.
  eapply agree_trans; [apply filter_condition_flatten|].
  eapply agree_trans; [|apply agree_sym, filter_condition_flatten].
  apply compile_where_and_Permutation.
  by rewrite (falsy_conjuncts_Permutation _ _ _ Hv).
Qed.

(** A query parameter with a falsy value (undefined, null, false, 0, NaN or
    the empty string) changes nothing: the customer listing gives the same
    result, and leaves the same world, as without the parameter, and the
    vendor listing gives the same result. *)
Theorem falsy_parameter_has_no_effect userInfo paginationData
    (params : gmap string JSValue) k v w :
  truthy v = false →
  getSingleCustomerAllOrder userInfo paginationData (<[k:=v]> params) w
    = getSingleCustomerAllOrder userInfo paginationData (delete k params) w
  ∧ fst (getSpecificShopOrder userInfo paginationData (<[k:=v]> params) w)
    = fst (getSpecificShopOrder userInfo paginationData (delete k params) w).
Proof.
  intros Hv. split.
  - rewrite !getSingleCustomerAllOrder_run. simpl. unfold customer_where.
    by destruct (run_findMany_same_selection (db w) _ _
                   {| include_shop := false; include_customer := false |}
                   (Pagination.skip (calculatePagination paginationData))
                   (Pagination.limit (calculatePagination paginationData))
                   (orderBy_of paginationData)
                   (falsy_parameter_same_selection (db w) params k v
                      [WAnd [WCustomerId
                               (Customer.customerId
                                  <$> find_customer (userEmail userInfo) (db w))]] Hv))
      as [-> _].
  - destruct (List.find (λ v, bool_decide (Vendor.email v = userEmail userInfo))
                (vendors (db w))) as [vendor|] eqn:Hvendor.
    2: { unfold getSpecificShopOrder. run_M. by rewrite Hvendor. }
    rewrite !(getSpecificShopOrder_run _ _ _ _ _ Hvendor). simpl. unfold vendor_where.
    destruct (run_findMany_same_selection (db w) _ _
                {| include_shop := false; include_customer := true |}
                (Pagination.skip (calculatePagination paginationData))
                (Pagination.limit (calculatePagination paginationData))
                (orderBy_of paginationData)
                (falsy_parameter_same_selection (db w) params k v
                   [WAnd [WItemsSomeShopVendor (Vendor.vendorId vendor)]] Hv))
      as [-> ->].
    destruct (run_findMany _ _); [|done]. by destruct (run_count _ _).
Qed.

(** *** Sort strings at the edges *)

(** What the listings make of unusual sort strings: the empty string counts
    as no sort and gives createdAt descending; a sort without a dash names
    the field and leaves the direction undefined; and of a sort with more
    than one dash only the first two parts are used. *)
Theorem orderBy_of_edge_cases p l :
  orderBy_of (IPaginationOptions.mk p l (Some ""))
    = {| ob_field := "createdAt"; ob_direction := Some "desc" |}
  ∧ (∀ sort, sort ≠ "" → has_char "-" sort = false →
       orderBy_of (IPaginationOptions.mk p l (Some sort))
         = {| ob_field := sort; ob_direction := None |})
  ∧ (∀ field dir tail,
       has_char "-" field = false → has_char "-" dir = false →
       orderBy_of (IPaginationOptions.mk p l
                     (Some (field +:+ "-" +:+ dir +:+ "-" +:+ tail)))
         = {| ob_field := field; ob_direction := Some dir |}).
Proof.
  split_and!.
  - reflexivity.
  - intros sort Hne Hno. unfold orderBy_of. simpl.
    rewrite (split_no_sep _ _ Hno). simpl.
    destruct (String.eqb sort "") eqn:E; [|done].
    by apply String.eqb_eq in E.
  - intros field dir tail Hf Hd. unfold orderBy_of. simpl.
    change ("-" +:+ dir +:+ "-" +:+ tail) with (String "-" (dir +:+ String "-" tail)).
    rewrite (split_app_sep _ _ _ Hf), (split_app_sep _ _ _ Hd). simpl.
    destruct (String.eqb _ "") eqn:E; [|done].
    apply String.eqb_eq in E. destruct field; discriminate.
Qed.

(** *** The number of pages *)

(** totalPage is the number of pages it takes: for a limit above 0 and a
    total that is not negative, the envelope reports the least number q of
    pages of that limit that hold total entries (0 pages for no entries).
    For a limit of 0 there is no such number, and totalPage is NaN for no
    entries and Infinity otherwise. *)
Theorem totalPage_is_least_cover pg total rows :
  0 ≤ total →
  (0 < Pagination.limit pg →
     ∃ q, Meta.totalPage (meta (envelope pg total rows)) = Finite q
          ∧ 0 ≤ q
          ∧ total ≤ q * Pagination.limit pg
          ∧ ∀ q', 0 ≤ q' → total ≤ q' * Pagination.limit pg → q ≤ q')
  ∧ (Pagination.limit pg = 0 →
       Meta.totalPage (meta (envelope pg total rows))
         = if Z.eqb total 0 then NaN else PosInfinity).
Proof.
  intros Htotal. unfold envelope, math_ceil_div. simpl. split.
  - intros Hlimit. rewrite (proj2 (Z.eqb_neq _ 0)) by lia.
    set (q := - (- total / Pagination.limit pg)).
    assert (Hq : (q - 1) * Pagination.limit pg < total ≤ q * Pagination.limit pg).
    { pose proof (Z.div_mod (- total) (Pagination.limit pg) ltac:(lia)) as Hdm.
      pose proof (Z.mod_pos_bound (- total) (Pagination.limit pg) Hlimit) as Hmod.
      unfold q. nia. }
    assert (0 ≤ q) by nia.
    exists q. split_and!; try done; try lia.
    + replace (Z.ltb total 0) with false by (symmetry; apply Z.ltb_ge; lia).
      replace (Z.ltb (Pagination.limit pg) 0) with false by (symmetry; apply Z.ltb_ge; lia).
      fold q. simpl. by rewrite !andb_false_r.
    + intros q' Hq' Hcover. nia.
  - intros ->. simpl. destruct (Z.eqb_spec total 0); [done|].
    by rewrite (proj2 (Z.ltb_lt 0 total)) by lia.
Qed.

(** *** Transaction ids *)

Lemma pretty_N_go_no_dash x s :
  has_char "-" s = false → has_char "-" (pretty_N_go x s) = false.
Proof.
  revert s. induction (N.lt_wf_0 x) as [x _ IH]; intros s Hs.
  assert (x = 0 ∨ 0 < x)%N as [->|Hpos] by lia.
  - by rewrite pretty_N_go_0.
  - rewrite pretty_N_go_step by done. apply IH; [by apply N.div_lt|].
    simpl. rewrite Hs, orb_false_r. apply bool_decide_eq_false_2.
    unfold pretty_N_char. by repeat case_match.
Qed.

Lemma pretty_Z_no_dash (z : Z) : 0 ≤ z → has_char "-" (pretty z) = false.
Proof.
  intros Hz. destruct z as [|x|x]; [done| |lia].
  unfold pretty, pretty_Z, pretty, pretty_positive, pretty, pretty_N.
  case_decide; [done|]. by apply pretty_N_go_no_dash.
Qed.

Lemma dash_split_inj a a' b b' :
  has_char "-" a = false → has_char "-" a' = false →
  a +:+ String "-" b = a' +:+ String "-" b' → a = a' ∧ b = b'.
Proof.
  revert a'. induction a as [|c a IH]; intros [|c' a']; simpl.
  - intros _ _ [= ->]. done.
  - intros _ H [= <- _]. by rewrite bool_decide_eq_true_2 in H.
  - intros H _ [= -> _]. by rewrite bool_decide_eq_true_2 in H.
  - intros H H' [= -> Heq].
    apply orb_false_iff in H as [_ H]. apply orb_false_iff in H' as [_ H'].
    destruct (IH _ H H' Heq) as [-> ->]. done.
Qed.

(** Two transaction ids coincide exactly when both the clock value and the
    random suffix do (for clock values that are not negative): ids drawn at
    different milliseconds, or with different suffixes, differ, and ids drawn
    in the same millisecond with the same suffix collide. *)
Theorem generateTransactionId_collision env1 env2 :
  0 ≤ dateNow env1 → 0 ≤ dateNow env2 →
  generateTransactionId env1 = generateTransactionId env2
  ↔ dateNow env1 = dateNow env2 ∧ randomNum env1 = randomNum env2.
Proof.
  intros H1 H2. unfold generateTransactionId. split.
  - intros Heq.
    change ("TXN-" +:+ ?x) with (String "T" (String "X" (String "N" (String "-" x)))) in Heq.
    injection Heq as Heq.
    change ("-" +:+ ?x) with (String "-" x) in Heq.
    apply dash_split_inj in Heq as [Hd Hr]; try by apply pretty_Z_no_dash.
    split; by apply (inj pretty).
  - intros [-> ->]. done.
Qed.

(** *** Which shop the rejection names *)

Lemma find_first {A} (f : A → bool) pre x post :
  (∀ y, In y pre → f y = false) → f x = true →
  List.find f (pre ++ x :: post) = Some x.
Proof.
  intros Hpre Hx. induction pre as [|y pre IH]; simpl.
  - by rewrite Hx.
  - rewrite (Hpre y) by (by left). apply IH. intros z Hz. apply Hpre. by right.
Qed.

(** The rejection names the first offender: when the caller is a known
    customer, the 400 error names the shop of the first line item, in the
    order of the request, that references a blacklisted shop, whatever comes
    after it in the request. *)
Theorem createOrderIntoDB_names_first_blacklisted
    orderInfo userData env w c pre bad post s :
  find_customer (userEmail userData) (db w) = Some c →
  IOrderRequest.items orderInfo = (pre ++ bad :: post)%list →
  (∀ item s', In item pre → In s' (shops (db w)) →
              Shop.shopId s' = IOrderItem.shopId item → Shop.isBlackListed s' = false) →
  In s (shops (db w)) →
  Shop.shopId s = IOrderItem.shopId bad →
  Shop.isBlackListed s = true →
  createOrderIntoDB orderInfo userData env w
    = (Throw (ApiError 400 ("Order cannot be placed as shop "
                              +:+ IOrderItem.shopId bad +:+ " is blacklisted.")), w).
Proof.
  intros Hc Hitems Hpre Hs Hid Hb.
  rewrite (createOrderIntoDB_found _ _ _ _ _ Hc), Hitems.
  rewrite find_first; [done| |].
  - intros item Hitem.
    destruct (includes _ (IOrderItem.shopId item)) eqn:E; [|done].
    apply includes_blacklisted in E as (s' & Hs' & Hid' & Hb').
    rewrite (Hpre _ _ Hitem Hs' Hid') in Hb'. discriminate.
  - apply includes_blacklisted. eauto.
Qed.

End Service.

(** ** The service on the sample database *)

Local Abbreviation sample_createOrder :=
  (createOrderIntoDB Sample.initiatePayment Sample.default_status Sample.schema_accepts).
Local Abbreviation sample_customerListing :=
  (getSingleCustomerAllOrder Sample.calculatePagination Sample.column_equals Sample.column_le).
Local Abbreviation sample_vendorListing :=
  (getSpecificShopOrder Sample.calculatePagination Sample.column_equals Sample.column_le).
Local Abbreviation sample_pendingListing :=
  (getPendingOrder Sample.calculatePagination Sample.column_equals Sample.column_le).
Local Abbreviation paged_customerListing :=
  (getSingleCustomerAllOrder sample_paginate Sample.column_equals Sample.column_le).
Local Abbreviation paged_pendingListing :=
  (getPendingOrder sample_paginate Sample.column_equals Sample.column_le).
Local Abbreviation sample_rows :=
  (map (with_relations Sample.database {| include_shop := false; include_customer := false |})).

(** C1, as stated, fails: the request below has a line item of the
    blacklisted shop s2, but its caller is no customer, and the call raises
    the 404 error, not an error with code 400. *)
Lemma createOrderIntoDB_blacklisted_counterexample :
  (∃ item s, In item (IOrderRequest.items Sample.banned_request)
             ∧ In s (shops (db Sample.world))
             ∧ Shop.shopId s = IOrderItem.shopId item ∧ Shop.isBlackListed s = true)
  ∧ sample_createOrder Sample.banned_request Sample.stranger_token Sample.env Sample.world
    = (Throw (ApiError 404 "Customer not found for payment"), Sample.world)
  ∧ ¬ ∃ message,
        fst (sample_createOrder Sample.banned_request Sample.stranger_token
               Sample.env Sample.world)
        = Throw (ApiError 400 message).
Proof.
  split; [|split].
  - exists Sample.banned_item, Sample.banned_shop. simpl. auto.
  - reflexivity.
  - intros [message H]. vm_compute in H. discriminate.
Qed.

Lemma createOrderIntoDB_blacklisted_shop_witness :
  find_customer (userEmail Sample.alice_token) (db Sample.world) = Some Sample.alice
  ∧ ∃ bad s,
      In bad (IOrderRequest.items Sample.banned_request) ∧ In s (shops (db Sample.world))
      ∧ Shop.shopId s = IOrderItem.shopId bad ∧ Shop.isBlackListed s = true
      ∧ sample_createOrder Sample.banned_request Sample.alice_token Sample.env Sample.world
        = (Throw (ApiError 400 ("Order cannot be placed as shop "
                                  +:+ IOrderItem.shopId bad +:+ " is blacklisted.")),
           Sample.world).
Proof.
  split; [reflexivity|].
  apply (createOrderIntoDB_blacklisted_shop
           Sample.initiatePayment Sample.default_status Sample.schema_accepts
           Sample.banned_request Sample.alice_token Sample.env Sample.world Sample.alice).
  - reflexivity.
  - exists Sample.banned_item, Sample.banned_shop. simpl. auto.
Defined.

(** The message names the shop: the request with a line item of shop s2. *)
Lemma createOrderIntoDB_blacklisted_message :
  sample_createOrder Sample.banned_request Sample.alice_token Sample.env Sample.world
  = (Throw (ApiError 400 "Order cannot be placed as shop s2 is blacklisted."),
     Sample.world).
Proof. vm_compute. reflexivity. Qed.

Lemma updateOrder_advances_one_step_witness :
  find_order "o1" (db Sample.world) = Some Sample.o1
  ∧ In (Order.status Sample.o1) ORDER_STATUS
  ∧ fst (updateOrder "o1" Sample.world)
    = Ok (Order.mk "o1" None 50 45 5 "c1" "TXN-1-1" "PENDING" "ONGOING" 100)
  ∧ find_order "o1" (db (snd (updateOrder "o1" Sample.world)))
    = Some (Order.mk "o1" None 50 45 5 "c1" "TXN-1-1" "PENDING" "ONGOING" 100)
  ∧ (∀ ids, ∃ o',
        find_order "o1" (db (run_updates ids Sample.world)) = Some o'
        ∧ (status_rank "PENDING" ≤ status_rank (Order.status o'))%nat).
Proof.
  split; [reflexivity|]. split; [simpl; auto|].
  destruct (updateOrder_advances_one_step "o1" Sample.world Sample.o1)
    as (next & Hnext & Hret & Hstored & _ & Hp & _ & _ & Hmono).
  - reflexivity.
  - simpl. auto.
  - assert (next = "ONGOING") as -> by (apply Hp; reflexivity).
    split; [exact Hret|]. split; [exact Hstored|exact Hmono].
Defined.

Lemma createOrderIntoDB_unknown_customer_witness :
  find_customer (userEmail Sample.stranger_token) (db Sample.world) = None
  ∧ sample_createOrder Sample.good_request Sample.stranger_token Sample.env Sample.world
    = (Throw (ApiError 404 "Customer not found for payment"), Sample.world).
Proof.
  split; [reflexivity|].
  apply (createOrderIntoDB_unknown_customer
           Sample.initiatePayment Sample.default_status Sample.schema_accepts
           Sample.good_request Sample.stranger_token Sample.env Sample.world).
  reflexivity.
Defined.

Lemma createOrderIntoDB_persists_and_pays_witness :
  let o := Order.mk "o4" None 100 100 0 "c1" "TXN-1700000000000-4242" "PENDING" "PENDING" 400 in
  sample_createOrder Sample.good_request Sample.alice_token Sample.env Sample.world
  = (Ok {| order := o; payLink := "https://pay.example/TXN-1700000000000-4242" |},
     {| db := {| customers := customers Sample.database;
                 vendors := vendors Sample.database;
                 shops := shops Sample.database;
                 orders := [Sample.o1; Sample.o2; Sample.o3; o];
                 orderItems :=
                   orderItems Sample.database ++ [OrderItem.mk "o4" "s1" "p1" "M" 2 50 0] |};
        paymentCalls :=
          [{| orderData := 100; txn := "TXN-1700000000000-4242";
              customerData := Sample.alice; orderId := "o4" |}];
        console := [] |}).
Proof.
  intros o.
  rewrite (createOrderIntoDB_persists_and_pays
             Sample.initiatePayment Sample.default_status Sample.schema_accepts
             Sample.good_request Sample.alice_token Sample.env Sample.world Sample.alice).
  - vm_compute. reflexivity.
  - reflexivity.
  - intros item s [<-|[]] [<-|[<-|[]]]; simpl; [reflexivity|discriminate].
  - reflexivity.
  - reflexivity.
Defined.

Lemma getSingleCustomerAllOrder_total_is_all_orders_witness :
  let two_per_page := IPaginationOptions.mk (JNumber 1) (JNumber 2) None in
  paged_customerListing Sample.alice_token two_per_page ∅ Sample.world
  = (Ok {| meta := Meta.mk 1 2 3 (Finite 2);
           data := sample_rows [Sample.o3; Sample.o1] |}, Sample.world)
  ∧ (∃ q, Finite 2 = Finite q ∧ (q - 1) * 2 < 3 ≤ q * 2)
  ∧ ∃ matching,
      run_count Sample.column_equals (db Sample.world)
        (Some (WAnd (customer_where (Some "c1") ∅))) = Ok matching
      ∧ matching ≤ 3.
Proof.
  intros two_per_page.
  destruct (getSingleCustomerAllOrder_total_is_all_orders
              sample_paginate Sample.column_equals Sample.column_le
              Sample.alice_token two_per_page ∅ Sample.world
              (sample_rows [Sample.o3; Sample.o1]))
    as (totalPage & Hrun & Htp & Hpos & _ & _ & Hcount).
  - vm_compute. reflexivity.
  - assert (totalPage = Finite 2) as -> by (rewrite Htp; reflexivity).
    split; [exact Hrun|]. split; [|exact Hcount].
    apply Hpos. simpl. lia.
Defined.

(** On the sample database the customer listing reports a total of 3, the
    number of all orders, while 2 orders match its where-condition. *)
Lemma getSingleCustomerAllOrder_total_differs_from_matching :
  orders (db Sample.world) = [Sample.o1; Sample.o2; Sample.o3]
  ∧ run_count Sample.column_equals (db Sample.world)
      (Some (WAnd (customer_where (Some "c1") ∅))) = Ok 2
  ∧ sample_customerListing Sample.alice_token Sample.no_options ∅ Sample.world
    = (Ok {| meta := Meta.mk 1 10 3 (Finite 1);
             data := sample_rows [Sample.o3; Sample.o1] |}, Sample.world).
Proof. split_and!; vm_compute; reflexivity. Qed.

Lemma getPendingOrder_returns_undelivered_witness :
  let one_per_page := IPaginationOptions.mk (JNumber 1) (JNumber 1) None in
  order_rows Sample.column_le (orderBy_of one_per_page)
    (List.filter not_delivered (orders (db Sample.world))) = Some [Sample.o2; Sample.o1]
  ∧ 0 ≤ Pagination.skip (sample_paginate one_per_page)
  ∧ ∃ rows,
      paged_pendingListing one_per_page Sample.world
      = (Ok {| meta := Meta.mk 1 1 2 (Finite 2); data := rows |}, Sample.world)
      ∧ (∃ q, Finite 2 = Finite q ∧ (q - 1) * 1 < 2 ≤ q * 1)
      ∧ map row rows = [Sample.o2].
Proof.
  intros one_per_page.
  split; [vm_compute; reflexivity|]. split; [simpl; lia|].
  destruct (getPendingOrder_returns_undelivered
              sample_paginate Sample.column_equals Sample.column_le
              one_per_page Sample.world [Sample.o2; Sample.o1])
    as (rows & totalPage & Hrun & Htp & Hpos & _ & _ & _ & Hrows & _).
  - vm_compute. reflexivity.
  - simpl. lia.
  - assert (totalPage = Finite 2) as -> by (rewrite Htp; reflexivity).
    exists rows. split; [exact Hrun|]. split; [|exact Hrows].
    apply Hpos. simpl. lia.
Defined.

(** C8, as stated, fails: searchTerm is a query parameter with a truthy
    value, and no conjunct equates a field to it, in either listing. *)
Lemma listing_filter_searchTerm_counterexample :
  let params : gmap string JSValue := {[ "searchTerm" := JString "shoes" ]} in
  params !! "searchTerm" = Some (JString "shoes")
  ∧ truthy (JString "shoes") = true
  ∧ ¬ conjunct_of (WFieldEquals "searchTerm" (JString "shoes"))
        (customer_where (Some "c1") params)
  ∧ ¬ conjunct_of (WFieldEquals "searchTerm" (JString "shoes"))
        (vendor_where "v1" params).
Proof.
  intros params. split_and!.
  - reflexivity.
  - reflexivity.
  - intros (conds & Hin & Hc). vm_compute in Hin.
    destruct Hin as [[= <-]|[]]. destruct Hc as [Hc|[]]. discriminate.
  - intros (conds & Hin & Hc). vm_compute in Hin.
    destruct Hin as [[= <-]|[]]. destruct Hc as [Hc|[]]. discriminate.
Qed.

(** The listings on the sample database with a filter and a sort. *)
Lemma listing_filter_and_sort_sample :
  let params : gmap string JSValue :=
    {[ "searchTerm" := JString "shoes"; "status" := JString "ONGOING";
       "total" := JNumber 0 ]} in
  customer_where (Some "c1") params
    = [WAnd [WFieldEquals "status" (JString "ONGOING")]; WAnd [WCustomerId (Some "c1")]]
  ∧ orderBy_of (IPaginationOptions.mk JUndefined JUndefined (Some "total-asc"))
    = {| ob_field := "total"; ob_direction := Some "asc" |}
  ∧ fst (sample_vendorListing Sample.vera_token
           (IPaginationOptions.mk JUndefined JUndefined (Some "total-asc")) ∅ Sample.world)
    = Ok {| meta := Meta.mk 1 10 3 (Finite 1);
            data := map (with_relations Sample.database
                           {| include_shop := false; include_customer := true |})
                        [Sample.o3; Sample.o1; Sample.o2] |}.
Proof. intros params. split_and!; vm_compute; reflexivity. Qed.

Lemma searchTerm_has_no_effect_witness :
  let params1 : gmap string JSValue :=
    {[ "searchTerm" := JString "shoes"; "status" := JString "ONGOING" ]} in
  let params2 : gmap string JSValue := {[ "status" := JString "ONGOING" ]} in
  (∀ k, k ≠ "searchTerm" → params1 !! k = params2 !! k)
  ∧ sample_customerListing Sample.vera_token Sample.no_options params1 Sample.world
    = sample_customerListing Sample.vera_token Sample.no_options params2 Sample.world
  ∧ sample_vendorListing Sample.vera_token Sample.no_options params1 Sample.world
    = sample_vendorListing Sample.vera_token Sample.no_options params2 Sample.world.
Proof.
  intros params1 params2.
  assert (∀ k, k ≠ "searchTerm" → params1 !! k = params2 !! k) as Hagree.
  { intros k Hk. unfold params1. by rewrite lookup_insert_ne. }
  split; [exact Hagree|].
  apply (searchTerm_has_no_effect
           Sample.calculatePagination Sample.column_equals Sample.column_le
           Sample.vera_token Sample.no_options params1 params2 Sample.world Hagree).
Defined.

Lemma getSingleCustomerAllOrder_unknown_customer_witness :
  find_customer (userEmail Sample.stranger_token) (db Sample.world) = None
  ∧ sample_customerListing Sample.stranger_token Sample.no_options ∅ Sample.world
    = (Ok {| meta := Meta.mk 1 10 3 (Finite 1);
             data := sample_rows [Sample.o3; Sample.o2; Sample.o1] |}, Sample.world).
Proof.
  split; [reflexivity|].
  destruct (getSingleCustomerAllOrder_unknown_customer
              Sample.calculatePagination Sample.column_equals Sample.column_le
              Sample.stranger_token Sample.no_options ∅ Sample.world)
    as (_ & _ & _ & Hok).
  - reflexivity.
  - apply Hok. vm_compute. reflexivity.
Defined.

(** ** The further properties on the sample database *)

Local Abbreviation sample_allListing :=
  (getAllOrder Sample.calculatePagination Sample.column_equals Sample.column_le).
Local Abbreviation paged_allListing :=
  (getAllOrder sample_paginate Sample.column_equals Sample.column_le).
Local Abbreviation sample_full_rows :=
  (map (with_relations Sample.database {| include_shop := true; include_customer := true |})).

Lemma getSpecificShopOrder_unknown_vendor_witness :
  List.find (λ v, bool_decide (Vendor.email v = userEmail Sample.alice_token))
    (vendors (db Sample.world)) = None
  ∧ sample_vendorListing Sample.alice_token Sample.no_options ∅ Sample.world
    = (Throw PrismaNotFoundError, Sample.world).
Proof.
  split; [reflexivity|].
  apply (getSpecificShopOrder_unknown_vendor
           Sample.calculatePagination Sample.column_equals Sample.column_le
           Sample.alice_token Sample.no_options ∅ Sample.world).
  reflexivity.
Defined.

Lemma updateOrder_twice_delivers_witness :
  find_order "o1" (db Sample.world) = Some Sample.o1
  ∧ In (Order.status Sample.o1) ORDER_STATUS
  ∧ (2 ≤ 3)%nat
  ∧ find_order "o1" (db (run_updates (replicate 3 "o1") Sample.world))
    = Some (Order.mk "o1" None 50 45 5 "c1" "TXN-1-1" "PENDING" "DELIVERED" 100).
Proof.
  split; [reflexivity|]. split; [simpl; auto|]. split; [lia|].
  apply (updateOrder_twice_delivers "o1" Sample.world Sample.o1 3).
  - reflexivity.
  - simpl. auto.
  - lia.
Defined.

Lemma createOrderIntoDB_then_getSingleOrder_witness :
  let wanted := [Sample.good_item; IOrderItem.mk "s1" "p2" "L" 1 20 0;
                 IOrderItem.mk "s1" "p3" "S" 4 5 1] in
  let request := IOrderRequest.mk None 140 139 1 wanted in
  ∃ found,
    getSingleOrder "o4"
      (snd (sample_createOrder request Sample.alice_token Sample.env Sample.world))
    = (Ok found,
       snd (sample_createOrder request Sample.alice_token Sample.env Sample.world))
    ∧ Order.id (row found) = "o4"
    ∧ Order.customerId (row found) = "c1"
    ∧ Order.subTotal (row found) = 140
    ∧ map (λ ir, let it := item ir in
                 IOrderItem.mk (OrderItem.shopId it) (OrderItem.productId it)
                   (OrderItem.size it) (OrderItem.quantity it) (OrderItem.price it)
                   (OrderItem.discount it)) (items found)
      ≡ₚ wanted.
Proof.
  intros wanted request.
  destruct (createOrderIntoDB_then_getSingleOrder
              Sample.initiatePayment Sample.default_status Sample.schema_accepts
              request Sample.alice_token Sample.env Sample.world Sample.alice)
    as (found & Hget & _ & Hid & Hcust & Hsub & Hitems).
  - reflexivity.
  - intros item s [<-|[<-|[<-|[]]]] [<-|[<-|[]]]; simpl;
      first [reflexivity|discriminate].
  - reflexivity.
  - intros it [<-|[<-|[<-|[]]]]; simpl; discriminate.
  - reflexivity.
  - exists found. split_and!; [exact Hget|exact Hid|exact Hcust|exact Hsub|exact Hitems].
Defined.

(** On the sample database no two orders share a creation time. *)
Lemma sample_createdAt_distinct :
  distinct_sort_keys Sample.column_le
    {| ob_field := "createdAt"; ob_direction := Some "desc" |}
    (orders (db Sample.world)).
Proof.
  exists "desc", (λ a b, bool_decide (Order.createdAt a ≤ Order.createdAt b)).
  split; [reflexivity|]. split; [reflexivity|].
  intros a b [<-|[<-|[<-|[]]]] [<-|[<-|[<-|[]]]] Hab Hba;
    first [reflexivity|vm_compute in Hab; discriminate|vm_compute in Hba; discriminate].
Qed.

Lemma getAllOrder_returns_all_witness :
  let second_of_one := IPaginationOptions.mk (JNumber 2) (JNumber 1) None in
  order_rows Sample.column_le (orderBy_of second_of_one) (orders (db Sample.world))
    = Some [Sample.o3; Sample.o2; Sample.o1]
  ∧ distinct_sort_keys Sample.column_le (orderBy_of second_of_one)
      (orders (db Sample.world))
  ∧ 0 ≤ Pagination.skip (sample_paginate second_of_one)
  ∧ ∃ rows,
      paged_allListing second_of_one Sample.world
      = (Ok {| meta := Meta.mk 2 1 3 (Finite 3); data := rows |}, Sample.world)
      ∧ map row rows = [Sample.o2].
Proof.
  intros second_of_one.
  split; [vm_compute; reflexivity|]. split; [exact sample_createdAt_distinct|].
  split; [simpl; lia|].
  destruct (getAllOrder_returns_all
              sample_paginate Sample.column_equals Sample.column_le
              second_of_one Sample.world [Sample.o3; Sample.o2; Sample.o1])
    as (rows & Hrun & Hpage & _).
  - vm_compute. reflexivity.
  - exact sample_createdAt_distinct.
  - simpl. lia.
  - exists rows. split; [exact Hrun|]. apply Hpage. simpl. lia.
Defined.

Lemma listing_page_bounds_witness :
  let one_per_page := IPaginationOptions.mk (JNumber 1) (JNumber 1) None in
  let env := {| meta := Meta.mk 1 1 2 (Finite 2);
                data := sample_full_rows [Sample.o2] |} in
  fst (paged_pendingListing one_per_page Sample.world) = Ok env
  ∧ Z.of_nat (length (data env)) ≤ Z.abs 1
  ∧ Z.of_nat (length (data env)) ≤ Meta.total (meta env)
  ∧ ∃ q, Meta.totalPage (meta env) = Finite q ∧ (q - 1) * 1 < 2 ≤ q * 1.
Proof.
  intros one_per_page env.
  assert (fst (paged_pendingListing one_per_page Sample.world) = Ok env) as H
    by (vm_compute; reflexivity).
  split; [exact H|].
  destruct (listing_page_bounds
              sample_paginate Sample.column_equals Sample.column_le
              Sample.alice_token one_per_page ∅ Sample.world env
              (or_intror (or_introl H)))
    as (H1 & H2 & _ & _ & _ & Hpos & _).
  split; [exact H1|]. split; [exact H2|]. apply Hpos. simpl. lia.
Defined.

Lemma getAllOrder_pages_concatenate_witness :
  let page n l := IPaginationOptions.mk (JNumber n) (JNumber l) None in
  ∃ env1 env2 env12,
    fst (paged_allListing (page 1 1) Sample.world) = Ok env1
    ∧ fst (paged_allListing (page 2 1) Sample.world) = Ok env2
    ∧ fst (paged_allListing (page 1 2) Sample.world) = Ok env12
    ∧ map row (data env1) = [Sample.o3]
    ∧ map row (data env2) = [Sample.o2]
    ∧ data env12 = (data env1 ++ data env2)%list.
Proof.
  intros page.
  eexists _, _, _. split_and!.
  1-3: vm_compute; reflexivity.
  1-2: reflexivity.
  apply (getAllOrder_pages_concatenate
           sample_paginate Sample.column_equals Sample.column_le
           (page 1 1) (page 2 1) (page 1 2) Sample.world);
    try reflexivity; try exact sample_createdAt_distinct;
    try (vm_compute; discriminate).
Defined.

Lemma customer_listing_only_own_orders_witness :
  find_customer (userEmail Sample.alice_token) (db Sample.world) = Some Sample.alice
  ∧ fst (sample_customerListing Sample.alice_token Sample.no_options ∅ Sample.world)
    = Ok {| meta := Meta.mk 1 10 3 (Finite 1);
            data := sample_rows [Sample.o3; Sample.o1] |}
  ∧ ∀ r, In r (sample_rows [Sample.o3; Sample.o1]) →
         In (row r) (orders (db Sample.world)) ∧ Order.customerId (row r) = "c1".
Proof.
  split; [reflexivity|]. split; [vm_compute; reflexivity|].
  apply (customer_listing_only_own_orders
           Sample.calculatePagination Sample.column_equals Sample.column_le
           Sample.alice_token Sample.no_options ∅ Sample.world Sample.alice
           {| meta := Meta.mk 1 10 3 (Finite 1);
              data := sample_rows [Sample.o3; Sample.o1] |}).
  - reflexivity.
  - vm_compute. reflexivity.
Defined.

Lemma vendor_listing_only_own_orders_witness :
  List.find (λ v, bool_decide (Vendor.email v = userEmail Sample.vera_token))
    (vendors (db Sample.world)) = Some Sample.vera
  ∧ ∃ env,
      fst (sample_vendorListing Sample.vera_token Sample.no_options ∅ Sample.world) = Ok env
      ∧ map row (data env) = [Sample.o3; Sample.o2; Sample.o1]
      ∧ run_count Sample.column_equals (db Sample.world)
          (Some (WAnd (vendor_where "v1" ∅))) = Ok (Meta.total (meta env))
      ∧ Z.of_nat (length (data env)) = Meta.total (meta env).
Proof.
  split; [reflexivity|].
  eexists. split; [vm_compute; reflexivity|]. split; [reflexivity|].
  destruct (vendor_listing_only_own_orders
              Sample.calculatePagination Sample.column_equals Sample.column_le
              Sample.vera_token Sample.no_options ∅ Sample.world Sample.vera
              {| meta := Meta.mk 1 10 3 (Finite 1);
                 data := map (with_relations Sample.database
                                {| include_shop := false; include_customer := true |})
                             [Sample.o3; Sample.o2; Sample.o1] |})
    as (_ & Hcount & Hfull).
  - reflexivity.
  - vm_compute. reflexivity.
  - split; [exact Hcount|]. apply Hfull; [reflexivity|simpl; lia].
Defined.

Lemma customer_listing_unknown_customer_sees_all_witness :
  let params : gmap string JSValue :=
    {[ "searchTerm" := JString "shoes"; "status" := JString "" ]} in
  find_customer (userEmail Sample.stranger_token) (db Sample.world) = None
  ∧ (∀ k v, params !! k = Some v → k = "searchTerm" ∨ truthy v = false)
  ∧ ∃ rows,
      sample_customerListing Sample.stranger_token Sample.no_options params Sample.world
      = (Ok {| meta := Meta.mk 1 10 3 (Finite 1); data := rows |}, Sample.world)
      ∧ map row rows = [Sample.o3; Sample.o2; Sample.o1].
Proof.
  intros params.
  assert (∀ k v, params !! k = Some v → k = "searchTerm" ∨ truthy v = false) as Hfalsy.
  { intros k v. unfold params. rewrite lookup_insert_Some, lookup_singleton_Some.
    intros [[<- _]|[_ [<- <-]]]; [by left|by right]. }
  split; [reflexivity|]. split; [exact Hfalsy|].
  destruct (customer_listing_unknown_customer_sees_all
              Sample.calculatePagination Sample.column_equals Sample.column_le
              Sample.stranger_token Sample.no_options params Sample.world
              [Sample.o3; Sample.o2; Sample.o1])
    as (rows & Hrun & Hrows & _).
  - reflexivity.
  - exact Hfalsy.
  - vm_compute. reflexivity.
  - simpl. lia.
  - exists rows. split; [exact Hrun|exact Hrows].
Defined.

Lemma falsy_parameter_has_no_effect_witness :
  let params : gmap string JSValue := {[ "status" := JString "ONGOING" ]} in
  truthy (JNumber 0) = false
  ∧ sample_customerListing Sample.alice_token Sample.no_options
      (<["total" := JNumber 0]> params) Sample.world
    = sample_customerListing Sample.alice_token Sample.no_options
        (delete "total" params) Sample.world
  ∧ fst (sample_vendorListing Sample.alice_token Sample.no_options
           (<["total" := JNumber 0]> params) Sample.world)
    = fst (sample_vendorListing Sample.alice_token Sample.no_options
             (delete "total" params) Sample.world).
Proof.
  intros params. split; [reflexivity|].
  apply (falsy_parameter_has_no_effect
           Sample.calculatePagination Sample.column_equals Sample.column_le
           Sample.alice_token Sample.no_options params "total" (JNumber 0) Sample.world).
  reflexivity.
Defined.

Lemma totalPage_is_least_cover_witness :
  0 ≤ 23
  ∧ (∃ q, Meta.totalPage (meta (envelope (Pagination.mk 1 10 0) 23 [])) = Finite q
          ∧ 0 ≤ q ∧ 23 ≤ q * 10 ∧ ∀ q', 0 ≤ q' → 23 ≤ q' * 10 → q ≤ q')
  ∧ Meta.totalPage (meta (envelope (Pagination.mk 1 10 0) 23 [])) = Finite 3.
Proof.
  split; [lia|].
  destruct (totalPage_is_least_cover (Pagination.mk 1 10 0) 23 []) as [Hpos _]; [lia|].
  split; [apply Hpos; simpl; lia|reflexivity].
Defined.

Lemma generateTransactionId_collision_witness :
  let later := {| dateNow := 1700000000001; randomNum := 4242;
                  newOrderId := "o5"; newCreatedAt := 401 |} in
  0 ≤ dateNow Sample.env ∧ 0 ≤ dateNow later
  ∧ generateTransactionId Sample.env ≠ generateTransactionId later.
Proof.
  intros later. split; [simpl; lia|]. split; [simpl; lia|].
  intros Heq.
  apply (generateTransactionId_collision Sample.env later) in Heq as [Hd _];
    [discriminate|simpl; lia|simpl; lia].
Defined.

Lemma createOrderIntoDB_names_first_blacklisted_witness :
  let request :=
    IOrderRequest.mk None 120 120 0
      [Sample.good_item; Sample.banned_item; IOrderItem.mk "s2" "p7" "L" 3 5 0] in
  sample_createOrder request Sample.alice_token Sample.env Sample.world
  = (Throw (ApiError 400 "Order cannot be placed as shop s2 is blacklisted."),
     Sample.world).
Proof.
  intros request.
  apply (createOrderIntoDB_names_first_blacklisted
           Sample.initiatePayment Sample.default_status Sample.schema_accepts
           request Sample.alice_token Sample.env Sample.world Sample.alice
           [Sample.good_item] Sample.banned_item [IOrderItem.mk "s2" "p7" "L" 3 5 0]
           Sample.banned_shop).
  - reflexivity.
  - reflexivity.
  - intros item s' [<-|[]] [<-|[<-|[]]]; simpl; [reflexivity|discriminate].
  - simpl. auto.
  - reflexivity.
  - reflexivity.
Defined.
